(** * A shallow embedding of the blog server (Express/Mongoose)

    The development follows the server sources:
    - [utils/validation.js]   : [sanitizeInput], [validatePagination],
                                [validateSearchQuery], [checkValidationResult],
                                [isValidObjectId], [isValidEmail];
    - [utils/auth.js]         : [isTokenExpired], [getTokenExpiration];
    - [middleware/auth.js]    : [auth], [optionalAuth], [adminAuth],
                                [checkOwnership];
    - [middleware/errorHandler.js] : [AppError], [errorHandler];
    - [models/Post.js]        : [incrementViews], [toggleLike], [addComment],
                                the slug hook, the statics;
    - the router of posts (the second router kept in [routes/auth.js]) and
      [routes/users.js]       : the request handlers.

    JavaScript values are an inductive type [jsval]; strings are Rocq
    strings whose characters stand for UTF-16 code units below 256; numbers
    are the integer-valued ones, carried as [Z], with [roundNumber] where a
    sum is a Number again.  The query of a request is the object Express
    makes of it.  MongoDB collections are
    finite maps from the document id to the document.  Thrown exceptions
    are the [Throw] case of an error monad.  What belongs to a library
    (jsonwebtoken, validator.js, the regular-expression engine of MongoDB,
    the casts of Mongoose) is a field of the record [Libs], a Section
    variable of the server. *)

From Stdlib Require Import ZArith Ascii String List Lia Bool Permutation.
From stdpp Require Import base option list gmap strings sorting.

Open Scope string_scope.
Open Scope Z_scope.
Open Scope list_scope.

(** ** Exceptions *)

(** [AppError] is the class of [middleware/errorHandler.js]; [JsError] is a
    plain [new Error(msg)]; [CastError] is raised by Mongoose when a value
    cannot be cast to an ObjectId, [ValidationError] when a document does
    not fit its schema. *)
Inductive exn : Type :=
  | AppError (message : string) (statusCode : Z)
  | JsError (message : string)
  | ValidationError (message : string)
  | CastError.

Inductive result (A : Type) : Type :=
  | Ok (a : A)
  | Throw (e : exn).
Arguments Ok {A} a.
Arguments Throw {A} e.

Definition bind {A B} (r : result A) (k : A -> result B) : result B :=
  match r with
  | Ok a => k a
  | Throw e => Throw e
  end.

Notation "'let*' x ':=' r 'in' k" := (bind r (fun x => k))
  (at level 10, x pattern, r at level 100, k at level 200).

(** ** JavaScript values *)

#[warnings="-register-all"]
Inductive jsval : Type :=
  | JUndefined
  | JNull
  | JBool (b : bool)
  | JNum (z : Z)
  | JStr (s : string)
  | JArr (elems : list jsval)
  | JObj (props : list (string * jsval)).

(** [JObj props] lists the own enumerable properties in the order
    [Object.entries] visits them; [JArr elems] is a dense array.
    [JNum z] is the Number printed with the decimal digits of [z]: every
    integer of magnitude at most 2^53, and the larger ones whose shortest
    decimal form is exact, such as 10^21. *)

Definition isArray (v : jsval) : bool :=
  match v with JArr _ => true | _ => false end.

(** ** Characters and strings *)

Definition code (c : ascii) : Z := Z.of_N (N_of_ascii c).

Definition chr (z : Z) : ascii := ascii_of_N (Z.to_N z).

(** White space and line terminators below 256, as [String.prototype.trim]
    and [parseInt] strip them. *)
Definition isWhiteSpace (c : ascii) : bool :=
  let n := code c in
  ((9 <=? n) && (n <=? 13)) || (n =? 32) || (n =? 160).

Definition isDigit (c : ascii) : bool :=
  let n := code c in (48 <=? n) && (n <=? 57).

Definition isUpper (c : ascii) : bool :=
  let n := code c in (65 <=? n) && (n <=? 90).

Definition isLower (c : ascii) : bool :=
  let n := code c in (97 <=? n) && (n <=? 122).

(** The class [\w] of a regular expression. *)
Definition isWordChar (c : ascii) : bool :=
  isDigit c || isUpper c || isLower c || (code c =? 95).

Definition toLower (c : ascii) : ascii :=
  if isUpper c then chr (code c + 32) else c.

(** [String.prototype.toLowerCase] on a code unit below 256. *)
Definition lowerUnit (c : ascii) : ascii :=
  let n := code c in
  if isUpper c then chr (n + 32)
  else if (192 <=? n) && (n <=? 222) && negb (n =? 215) then chr (n + 32)
  else c.

Fixpoint toLowerCase (s : string) : string :=
  match s with
  | String c s' => String (lowerUnit c) (toLowerCase s')
  | EmptyString => EmptyString
  end.

Fixpoint trimStart (s : string) : string :=
  match s with
  | String c s' => if isWhiteSpace c then trimStart s' else s
  | EmptyString => EmptyString
  end.

(** [trimEnd] keeps a character when it is not white space or when something
    that is kept follows it. *)
Fixpoint trimEnd (s : string) : string :=
  match s with
  | String c s' =>
      match trimEnd s' with
      | EmptyString => if isWhiteSpace c then EmptyString else String c EmptyString
      | t => String c t
      end
  | EmptyString => EmptyString
  end.

Definition trim (s : string) : string := trimEnd (trimStart s).

(** [startsWithCI p s]: [s] starts with the lower-case pattern [p], letters
    compared without case, as a regular expression with flag [i] does. *)
Fixpoint startsWithCI (p s : string) : bool :=
  match p, s with
  | EmptyString, _ => true
  | String a p', String c s' => Ascii.eqb a (toLower c) && startsWithCI p' s'
  | String _ _, EmptyString => false
  end.

Fixpoint startsWith (p s : string) : bool :=
  match p, s with
  | EmptyString, _ => true
  | String a p', String c s' => Ascii.eqb a c && startsWith p' s'
  | String _ _, EmptyString => false
  end.

Fixpoint dropChars (n : nat) (s : string) : string :=
  match n, s with
  | S n', String _ s' => dropChars n' s'
  | _, _ => s
  end.

(** ** Numbers and [parseInt] *)

(** Value of a digit in radix up to 36. *)
Definition digitValue (c : ascii) : option Z :=
  if isDigit c then Some (code c - 48)
  else if isLower c then Some (code c - 87)
  else if isUpper c then Some (code c - 55)
  else None.

(** The longest prefix of radix-[r] digits of [s], read from the
    accumulator [acc] on. *)
Fixpoint parseDigits (r : Z) (acc : Z) (s : string) : Z :=
  match s with
  | String c s' =>
      match digitValue c with
      | Some d => if d <? r then parseDigits r (acc * r + d) s' else acc
      | None => acc
      end
  | EmptyString => acc
  end.

(** Digits only. *)
Fixpoint digitsOnly (s : string) : bool :=
  match s with
  | String c s' => isDigit c && digitsOnly s'
  | EmptyString => true
  end.

Definition startsWithDigit (r : Z) (s : string) : bool :=
  match s with
  | String c _ =>
      match digitValue c with
      | Some d => d <? r
      | None => false
      end
  | EmptyString => false
  end.

(** [parseInt] of a string, radix argument absent: white space skipped, an
    optional sign, an optional [0x]/[0X] prefix selecting radix 16, then the
    longest run of digits; [None] is NaN.  The digits are read exactly: the
    result is the integer they denote, which is the Number [parseInt]
    returns up to 2^53 and for the digits that [Number::toString] prints
    (beyond, [parseInt] returns the nearest Number, see [roundNumber]). *)
Definition splitSign (s : string) : Z * string :=
  match s with
  | String "-" t => (-1, t)
  | String "+" t => (1, t)
  | _ => (1, s)
  end.

Definition splitRadix (s : string) : Z * string :=
  if startsWithCI "0x" s then (16, dropChars 2 s) else (10, s).

Definition parseIntString (s : string) : option Z :=
  let '(sign, s2) := splitSign (trimStart s) in
  let '(r, s3) := splitRadix s2 in
  if startsWithDigit r s3 then Some (sign * parseDigits r 0 s3) else None.

(** Decimal digits of a natural number, most significant first. *)
Definition digitChar (d : Z) : ascii := chr (48 + d).

Fixpoint digitsAcc (fuel : nat) (n : Z) (acc : string) : string :=
  match fuel with
  | O => acc
  | S f =>
      let acc' := String (digitChar (n mod 10)) acc in
      if n <? 10 then acc' else digitsAcc f (n / 10) acc'
  end.

Definition decimal (n : Z) : string :=
  digitsAcc (S (Z.to_nat (Z.log2 n))) n EmptyString.

(** Drop the zeros at the end of a digit string (never the first digit). *)
Fixpoint stripZeros (s : string) : string :=
  match s with
  | String c s' =>
      match stripZeros s' with
      | EmptyString => if Ascii.eqb c "0" then EmptyString else String c EmptyString
      | t => String c t
      end
  | EmptyString => EmptyString
  end.

(** [Number::toString] of a non-negative integer: plain digits below 10^21,
    and from 10^21 on the form [d.ddde+N] (or [de+N]). *)
Definition numberToStringAbs (n : Z) : string :=
  if n <? 10 ^ 21 then decimal n
  else
    let ds := decimal n in
    let e := Z.of_nat (String.length ds) - 1 in
    match ds with
    | String d rest =>
        let frac := stripZeros rest in
        String d ((if String.eqb frac "" then "" else "." +:+ frac)
                  +:+ "e+" +:+ decimal e)
    | EmptyString => EmptyString
    end.

Definition numberToString (z : Z) : string :=
  if z <? 0 then "-" +:+ numberToStringAbs (- z) else numberToStringAbs z.

Fixpoint joinWith (sep : string) (l : list string) : string :=
  match l with
  | [] => ""
  | [s] => s
  | s :: l' => s +:+ sep +:+ joinWith sep l'
  end.

(** [ToString] of the specification of the language. *)
Fixpoint toString (v : jsval) : string :=
  match v with
  | JUndefined => "undefined"
  | JNull => "null"
  | JBool true => "true"
  | JBool false => "false"
  | JNum z => numberToString z
  | JStr s => s
  | JArr l =>
      joinWith ","
        (map (fun e => match e with
                       | JUndefined | JNull => ""
                       | _ => toString e
                       end) l)
  | JObj _ => "[object Object]"
  end.

Definition parseInt (v : jsval) : option Z := parseIntString (toString v).

(** The Number nearest to the integer [z]: [z] itself up to 2^53 in
    magnitude; beyond, the nearest multiple of the distance [2^e] between
    the Numbers around [z], and of two that are as near the one whose
    53-bit significand is even.  (Infinity, from 2^1024 on, is not
    modelled: adding 1 to a Number never reaches it.) *)
Definition roundNumber (z : Z) : Z :=
  let a := Z.abs z in
  let e := Z.log2 a - 52 in
  if e <=? 0 then z
  else
    let ulp := 2 ^ e in
    let q := a / ulp in
    let r := a mod ulp in
    let q' := if 2 * r <? ulp then q
              else if ulp <? 2 * r then q + 1
              else if Z.even q then q else q + 1 in
    Z.sgn z * (q' * ulp).

(** [n || d] for a number [n]: NaN and 0 are falsy. *)
Definition orDefault (n : option Z) (d : Z) : Z :=
  match n with
  | Some z => if z =? 0 then d else z
  | None => d
  end.

(** ** utils/validation.js *)

Record pagination : Type := { page : Z; limit : Z }.

Definition validatePagination (page limit : jsval) : result pagination :=
  let pageNum := orDefault (parseInt page) 1 in
  let limitNum := orDefault (parseInt limit) 10 in
  if pageNum <? 1 then
    Throw (JsError "Page number must be greater than 0")
  else if (limitNum <? 1) || (limitNum >? 100) then
    Throw (JsError "Limit must be between 1 and 100")
  else
    Ok {| page := pageNum; limit := limitNum |}.

Definition validateSearchQuery (query : jsval) : result string :=
  match query with
  | JStr (String c q) =>
      let trimmedQuery := trim (String c q) in
      if Z.of_nat (String.length trimmedQuery) <? 2 then
        Throw (JsError "Search query must be at least 2 characters long")
      else if Z.of_nat (String.length trimmedQuery) >? 100 then
        Throw (JsError "Search query cannot exceed 100 characters")
      else Ok trimmedQuery
  | _ => Throw (JsError "Search query is required")
  end.

(** *** [sanitizeInput] *)

Fixpoint filterChars (keep : ascii -> bool) (s : string) : string :=
  match s with
  | String c s' =>
      if keep c then String c (filterChars keep s') else filterChars keep s'
  | EmptyString => EmptyString
  end.

(** [s.replace(re, '')] for a global regular expression [re] that matches no
    empty string: [matchAt t] is the length of the match of [re] at the
    start of [t].  The text is scanned from the left; a match is dropped and
    the scan goes on after it. *)
Fixpoint removeMatches (matchAt : string -> option nat) (skip : nat)
  (s : string) : string :=
  match s with
  | String c s' =>
      match skip with
      | S k => removeMatches matchAt k s'
      | O =>
          match matchAt s with
          | Some (S k) => removeMatches matchAt k s'
          | _ => String c (removeMatches matchAt O s')
          end
      end
  | EmptyString => EmptyString
  end.

(** [/javascript:/gi] *)
Definition matchJavascript (s : string) : option nat :=
  if startsWithCI "javascript:" s then Some 11%nat else None.

Fixpoint wordRun (s : string) : nat :=
  match s with
  | String c s' => if isWordChar c then S (wordRun s') else O
  | EmptyString => O
  end.

(** [/on\w+=/gi]: the greedy [\w+] takes the whole run of word characters
    after [on], and [=] has to follow that run, since [=] is no word
    character. *)
Definition matchOnHandler (s : string) : option nat :=
  if startsWithCI "on" s then
    let k := wordRun (dropChars 2 s) in
    match k with
    | O => None
    | S _ =>
        if startsWith "=" (dropChars (2 + k) s) then Some (2 + k + 1)%nat
        else None
    end
  else None.

(** Offset of the first [</script>] in [s], letters without case. *)
Fixpoint findClosingScript (s : string) : option nat :=
  if startsWithCI "</script>" s then Some O
  else
    match s with
    | String _ s' => option_map S (findClosingScript s')
    | EmptyString => None
    end.

(** The last replacement of [sanitizeInput], flags [gi]: the text
    [<script] followed by a word boundary, then runs free of [<] and
    characters [<] that do not start [</script>], then [</script>].  A match
    therefore ends with the first [</script>] after its start. *)
Definition matchScript (s : string) : option nat :=
  if startsWithCI "<script" s then
    let rest := dropChars 7 s in
    let boundary :=
      match rest with
      | String c _ => negb (isWordChar c)
      | EmptyString => true
      end in
    if boundary then
      match findClosingScript rest with
      | Some j => Some (7 + j + 9)%nat
      | None => None
      end
    else None
  else None.

Definition isAngle (c : ascii) : bool :=
  Ascii.eqb c "<" || Ascii.eqb c ">".

Definition sanitizeString (data : string) : string :=
  let s1 := trim data in
  let s2 := filterChars (fun c => negb (isAngle c)) s1 in
  let s3 := removeMatches matchJavascript O s2 in
  let s4 := removeMatches matchOnHandler O s3 in
  removeMatches matchScript O s4.

(** [Object.entries] of a dense array: the indices, as decimal strings. *)
Fixpoint indexed (i : nat) (l : list jsval) : list (string * jsval) :=
  match l with
  | [] => []
  | v :: l' => (decimal (Z.of_nat i), v) :: indexed (S i) l'
  end.

(** The assignments [sanitized[key] = value] into the fresh object
    [sanitized = {}], one per entry.  The key [__proto__] reaches the setter
    inherited from [Object.prototype] and creates no own property. *)
Definition assignProps (entries : list (string * jsval)) : list (string * jsval) :=
  List.filter (fun kv => negb (String.eqb (fst kv) "__proto__")) entries.

Fixpoint sanitizeInput (data : jsval) : jsval :=
  match data with
  | JStr s => JStr (sanitizeString s)
  | JArr elems =>
      JObj (assignProps (indexed 0 (List.map sanitizeInput elems)))
  | JObj props =>
      JObj (assignProps
              (List.map (fun kv => match kv with
                                   | (key, value) => (key, sanitizeInput value)
                                   end) props))
  | _ => data
  end.

(** Property read [o.key] on own properties. *)
Fixpoint lookupProp (key : string) (props : list (string * jsval)) : jsval :=
  match props with
  | (k, v) :: props' => if String.eqb k key then v else lookupProp key props'
  | [] => JUndefined
  end.

Definition getProp (o : jsval) (key : string) : jsval :=
  match o with
  | JObj props => lookupProp key props
  | _ => JUndefined
  end.

(** Truthiness, [ToBoolean]. *)
Definition truthy (v : jsval) : bool :=
  match v with
  | JUndefined | JNull => false
  | JBool b => b
  | JNum z => negb (z =? 0)
  | JStr s => negb (String.eqb s "")
  | JArr _ | JObj _ => true
  end.

(** ** Documents and collections *)

Inductive Role : Type := RoleUser | RoleAdmin.

(** A user as [select('-password')] returns it; the [_id] of a document is
    its key in the collection. *)
Record User : Type := {
  username : string;
  email : string;
  role : Role;
  isActive : bool
}.

Inductive Status : Type := Draft | Published | Archived.

Definition statusName (s : Status) : string :=
  match s with
  | Draft => "draft"
  | Published => "published"
  | Archived => "archived"
  end.

Record Comment : Type := {
  commentUser : string;
  commentContent : string;
  commentCreatedAt : Z
}.

Record Post : Type := {
  title : string;
  content : string;
  author : string;
  category : string;
  slug : string;
  status : Status;
  tags : list string;
  featured : bool;
  views : Z;
  likes : list string;
  comments : list Comment;
  createdAt : Z
}.

Record Category : Type := {
  categoryName : string;
  categorySlug : string
}.

Record Store : Type := {
  users : gmap string User;
  posts : gmap string Post;
  categories : gmap string Category
}.

Definition withPosts (st : Store) (ps : gmap string Post) : Store :=
  {| users := users st; posts := ps; categories := categories st |}.

Definition withUsers (st : Store) (us : gmap string User) : Store :=
  {| users := us; posts := posts st; categories := categories st |}.

(** [post.save()] of a loaded document. *)
Definition savePost (id : string) (p : Post) (st : Store) : Store :=
  withPosts st (<[id := p]> (posts st)).

(** ** models/Post.js *)

Definition setViews (p : Post) (v : Z) : Post :=
  {| title := title p; content := content p; author := author p;
     category := category p; slug := slug p; status := status p;
     tags := tags p; featured := featured p; views := v;
     likes := likes p; comments := comments p; createdAt := createdAt p |}.

Definition setLikes (p : Post) (l : list string) : Post :=
  {| title := title p; content := content p; author := author p;
     category := category p; slug := slug p; status := status p;
     tags := tags p; featured := featured p; views := views p;
     likes := l; comments := comments p; createdAt := createdAt p |}.

(** [this.views += 1; return await this.save()], for a view count that is
    an integer: the sum is a Number again, so that it is rounded from 2^53
    on. *)
Definition incrementViews (id : string) (p : Post) (st : Store) : Post * Store :=
  let p' := setViews p (roundNumber (views p + 1)) in
  (p', savePost id p' st).

(** [Array.prototype.indexOf]: [None] stands for -1. *)
Fixpoint indexOf (x : string) (l : list string) : option nat :=
  match l with
  | [] => None
  | y :: l' => if String.eqb y x then Some O else option_map S (indexOf x l')
  end.

(** [l.splice(i, 1)] *)
Definition splice1 (i : nat) (l : list string) : list string :=
  take i l ++ drop (S i) l.

(** [l.push(x)] *)
Definition push (x : string) (l : list string) : list string := l ++ [x].

Definition toggleLikes (userId : string) (l : list string) : list string :=
  match indexOf userId l with
  | Some likeIndex => splice1 likeIndex l
  | None => push userId l
  end.

Definition toggleLike (id : string) (p : Post) (userId : string) (st : Store)
  : Post * Store :=
  let p' := setLikes p (toggleLikes userId (likes p)) in
  (p', savePost id p' st).

(** How many times [x] occurs in [l]. *)
Definition occurrences (x : string) (l : list string) : nat :=
  length (List.filter (String.eqb x) l).

(** The virtual [likeCount]. *)
Definition likeCount (p : Post) : Z := Z.of_nat (length (likes p)).

(** ** Responses and the error handler *)

Record pageInfo : Type := {
  infoPage : Z;
  infoLimit : Z;
  infoTotal : Z;
  infoPages : Z
}.

(** The JSON bodies the handlers send.  Documents are shown with their id;
    the references filled in by [populate] are left as ids. *)
Inductive body : Type :=
  | BError (error : string)
  | BValidationFailed (details : list string)
  | BMessage (message : string)
  | BPost (id : string) (post : Post)
  | BPostMessage (message : string) (id : string) (post : Post)
  | BPosts (found : list (string * Post)) (info : pageInfo)
  | BLike (message : string) (count : Z).

Record response : Type := { statusCode : Z; json : body }.

(** [errorHandler] of middleware/errorHandler.js, outside development mode:
    the status is [err.statusCode || 500], the message [err.message ||
    'Server Error']; a [CastError] is answered 404 and a [ValidationError]
    400. *)
Definition messageOr (m : string) : string :=
  if String.eqb m "" then "Server Error" else m.

Definition errorHandler (err : exn) : response :=
  match err with
  | CastError => {| statusCode := 404; json := BError "Resource not found" |}
  | AppError m c =>
      {| statusCode := (if c =? 0 then 500 else c); json := BError (messageOr m) |}
  | JsError m => {| statusCode := 500; json := BError (messageOr m) |}
  | ValidationError m => {| statusCode := 400; json := BError (messageOr m) |}
  end.

(** [asyncHandler]: what the handler throws goes to [errorHandler]. *)
Definition asyncHandler (r : result response * Store) : response * Store :=
  match r with
  | (Ok res, st) => (res, st)
  | (Throw e, st) => (errorHandler e, st)
  end.

(** [checkValidationResult] over the errors collected by the validation
    chains of a route: [None] stands for the call of [next()]. *)
Definition checkValidationResult (errors : list string) : option response :=
  match errors with
  | [] => None
  | _ => Some {| statusCode := 400; json := BValidationFailed errors |}
  end.

(** ** Requests *)

(** [query] is [req.query], the object made by the query parser of Express,
    given by its properties as in [JObj], each name once: the value of a
    parameter is a string; a parameter given several times is one property
    that holds an array, and one written with brackets holds an array or an
    object. *)
Record request : Type := {
  authorization : option string;
  paramId : string;
  query : list (string * jsval);
  reqBody : jsval
}.

(** [req.query.name] *)
Fixpoint queryParam (name : string) (q : list (string * jsval)) : jsval :=
  match q with
  | (k, v) :: q' => if String.eqb k name then v else queryParam name q'
  | [] => JUndefined
  end.

(** ** Libraries *)

(** Outcome of [jwt.verify(token, secret)]. *)
Inductive verified : Type :=
  | Verified (decoded : jsval)
  | JsonWebTokenError
  | TokenExpiredError
  | VerifyFailure.

(** What the server takes from its libraries:
    - jsonwebtoken: [jwt_sign payload expiresIn issuer audience now], with
      [expiresIn] in seconds and [now] in milliseconds; [jwt_verify];
      [jwt_decode], whose result is [JNull] for a text that is no token;
    - Mongoose: [castObjectId], the cast of a value to an ObjectId (printed
      in hexadecimal), [None] when it raises a CastError; [assignAndSave
      post updates], that is [Object.assign(post, updates)] followed by
      [post.save()] with its casts, validation and hooks;
    - MongoDB: [regexTest pattern text], the operator [$regex] with option
      [i], for a pattern the engine accepts;
    - the language: [lessThanNumber v n], the comparison [v < n] for a
      value [v] that is no Number, which goes through [ToNumber];
    - Mongoose again: [castQuery path v], the condition on the values of
      [path] that the filter [{ path: v }] is cast to when [v] is no string
      (the operator [$in] for an array, the operators of an object) or when
      the schema gives setters to [path] (the slug), [None] when the cast
      raises a CastError;
    - validator.js: [isInt], [isMongoId], [isLength];
    - express-validator: [fieldTexts v], the texts on which a validator is
      run for a field whose value [v] is no string (the elements of an
      array, or the value as a whole); [runUpdateChains], the chains
      declared for [PUT /posts/:id] run over a body, which give the body
      with its fields trimmed and the messages of the failed checks. *)
Record Libs : Type := {
  jwt_sign : jsval -> Z -> string -> string -> Z -> result string;
  jwt_verify : string -> verified;
  jwt_decode : string -> result jsval;
  castObjectId : jsval -> option string;
  castQuery : string -> jsval -> option (string -> bool);
  assignAndSave : Post -> jsval -> result Post;
  regexTest : string -> string -> bool;
  lessThanNumber : jsval -> Z -> bool;
  isInt : string -> option Z -> option Z -> bool;
  isMongoId : string -> bool;
  isLength : string -> Z -> Z -> bool;
  fieldTexts : jsval -> list string;
  runUpdateChains : jsval -> jsval * list string
}.

(** Configuration: the lifetime denoted by [JWT_EXPIRES_IN], in seconds. *)
Record Config : Type := { jwtExpiresIn : Z }.

Definition roleName (r : Role) : string :=
  match r with
  | RoleUser => "user"
  | RoleAdmin => "admin"
  end.

Definition isAdmin (u : User) : bool :=
  match role u with
  | RoleAdmin => true
  | RoleUser => false
  end.

(** [s.replace(p, '')] for a string pattern: the first occurrence goes. *)
Fixpoint removeFirst (p s : string) : string :=
  if startsWith p s then dropChars (String.length p) s
  else
    match s with
    | String c s' => String c (removeFirst p s')
    | EmptyString => EmptyString
    end.

Definition isIn (values : list string) (s : string) : bool :=
  existsb (String.eqb s) values.

(** [Math.ceil(total / limit)] for a positive [limit]. *)
Definition ceilDiv (total limit : Z) : Z := - ((- total) / limit).

Definition newerFirst (a b : string * Post) : Prop :=
  createdAt (snd b) <= createdAt (snd a).

#[global] Instance newerFirst_dec : RelDecision newerFirst :=
  fun a b => Z_le_dec (createdAt (snd b)) (createdAt (snd a)).

(** [find(filter).sort({ createdAt: -1 }).skip(skip).limit(limit)] *)
Definition findSorted (filter : Post -> bool) (coll : gmap string Post)
  : list (string * Post) :=
  merge_sort newerFirst
    (List.filter (fun d => filter (snd d)) (map_to_list coll)).

Definition skipLimit {A} (skip limit : Z) (l : list A) : list A :=
  take (Z.to_nat limit) (drop (Z.to_nat skip) l).

Definition countDocuments (filter : Post -> bool) (coll : gmap string Post) : Z :=
  Z.of_nat (length (List.filter (fun d => filter (snd d)) (map_to_list coll))).

Section Server.

Variable L : Libs.
Variable cfg : Config.

(** ** utils/auth.js *)

Definition tokenPayload (id : string) (user : User) : jsval :=
  JObj [("userId", JStr id); ("email", JStr (email user));
        ("username", JStr (username user));
        ("role", JStr (roleName (role user)))].

Definition generateToken (id : string) (user : User) (now : Z) : result string :=
  match jwt_sign L (tokenPayload id user) (jwtExpiresIn cfg)
          "mern-testing-app" "mern-testing-users" now with
  | Ok token => Ok token
  | Throw _ => Throw (JsError "Failed to generate token")
  end.

(** [v < n] for a number [n]. *)
Definition lessThan (v : jsval) (n : Z) : bool :=
  match v with
  | JNum z => z <? n
  | _ => lessThanNumber L v n
  end.

(** [now] is [Date.now()], in milliseconds. *)
Definition isTokenExpired (token : string) (now : Z) : bool :=
  match jwt_decode L token with
  | Ok decoded =>
      if negb (truthy decoded) || negb (truthy (getProp decoded "exp")) then true
      else
        let currentTime := now / 1000 in
        lessThan (getProp decoded "exp") currentTime
  | Throw _ => true
  end.

(** ** express-validator *)

(** One validation chain, [.optional()] or not, with one validator and its
    message: an absent field is skipped when optional and checked as the
    empty string otherwise; every text that fails the validator gives the
    message once. *)
Definition chain (field : jsval) (optional : bool) (validator : string -> bool)
  (message : string) : list string :=
  match field with
  | JUndefined =>
      if optional then [] else if validator "" then [] else [message]
  | JStr s => if validator s then [] else [message]
  | _ =>
      flat_map (fun s => if validator s then [] else [message])
        (fieldTexts L field)
  end.

(** ** Mongoose queries *)

(** The condition that a filter value is cast to on a path of type String
    without setters, such as the status: equality for a string. *)
Definition castString (path : string) (v : jsval) : result (string -> bool) :=
  match v with
  | JStr s => Ok (String.eqb s)
  | _ =>
      match castQuery L path v with
      | Some f => Ok f
      | None => Throw CastError
      end
  end.

(** [Model.findById(id)]: an absent id finds nothing, another value is cast
    to an ObjectId first. *)
Definition findById {A} (coll : gmap string A) (id : jsval)
  : result (option (string * A)) :=
  match id with
  | JUndefined | JNull => Ok None
  | _ =>
      match castObjectId L id with
      | Some oid =>
          Ok (match coll !! oid with Some d => Some (oid, d) | None => None end)
      | None => Throw CastError
      end
  end.

(** ** middleware/auth.js *)

Inductive outcome : Type :=
  | Next (userId : string) (user : User)
  | Respond (res : response).

Definition reject (code : Z) (message : string) : outcome :=
  Respond {| statusCode := code; json := BError message |}.

Definition auth (st : Store) (req : request) : outcome :=
  match option_map (removeFirst "Bearer ") (authorization req) with
  | None | Some EmptyString => reject 401 "Access denied. No token provided."
  | Some token =>
      match jwt_verify L token with
      | Verified decoded =>
          match findById (users st) (getProp decoded "userId") with
          | Ok None => reject 401 "Invalid token. User not found."
          | Ok (Some (id, user)) =>
              if isActive user then Next id user
              else reject 401 "Account is deactivated."
          | Throw _ => reject 500 "Authentication failed."
          end
      | JsonWebTokenError => reject 401 "Invalid token."
      | TokenExpiredError => reject 401 "Token expired."
      | VerifyFailure => reject 500 "Authentication failed."
      end
  end.

Definition adminAuth (st : Store) (req : request) : outcome :=
  match auth st req with
  | Next id user =>
      if isAdmin user then Next id user
      else reject 403 "Access denied. Admin privileges required."
  | Respond res => Respond res
  end.

(** ** routes/posts.js *)

Definition ok (b : body) : response := {| statusCode := 200; json := b |}.

(** *** [GET /api/posts] *)

Definition listPostsChecks (req : request) : list string :=
  let q := query req in
  chain (queryParam "page" q) true (fun s => isInt L s (Some 1) None)
    "Page must be a positive integer"
  ++ chain (queryParam "limit" q) true (fun s => isInt L s (Some 1) (Some 100))
    "Limit must be between 1 and 100"
  ++ chain (queryParam "category" q) true (isMongoId L) "Invalid category ID"
  ++ chain (queryParam "search" q) true (fun s => isLength L s 2 100)
    "Search query must be between 2 and 100 characters"
  ++ chain (queryParam "status" q) true (isIn ["draft"; "published"; "archived"])
    "Invalid status".

(** The filter built in [query]: status, category and the [$or] of the
    search over title, content and tags. *)
Definition listFilter (statusF : string -> bool)
  (categoryF : option (string -> bool)) (searchF : option string) (p : Post)
  : bool :=
  statusF (statusName (status p))
  && match categoryF with
     | Some c => c (category p)
     | None => true
     end
  && match searchF with
     | Some re =>
         regexTest L re (title p) || regexTest L re (content p)
         || existsb (regexTest L re) (tags p)
     | None => true
     end.

(** The condition on the category, a path of type ObjectId, when the query
    names one. *)
Definition castFilter (v : jsval) : result (option (string -> bool)) :=
  if truthy v then
    match v with
    | JStr _ =>
        match castObjectId L v with
        | Some oid => Ok (Some (String.eqb oid))
        | None => Throw CastError
        end
    | _ =>
        match castQuery L "category" v with
        | Some f => Ok (Some f)
        | None => Throw CastError
        end
    end
  else Ok None.

Definition listPostsHandler (st : Store) (req : request) : result response :=
  let q := query req in
  let pageArg := queryParam "page" q in
  let limitArg := queryParam "limit" q in
  let categoryArg := queryParam "category" q in
  let search := queryParam "search" q in
  let statusArg := queryParam "status" q in
  let statusV := if truthy statusArg then statusArg else JStr "published" in
  let* searchF :=
    (if truthy search then
       let* searchQuery := validateSearchQuery search in Ok (Some searchQuery)
     else Ok None) in
  let* pg := validatePagination pageArg limitArg in
  let skip := (page pg - 1) * limit pg in
  let* statusF := castString "status" statusV in
  let* categoryF := castFilter categoryArg in
  let filter := listFilter statusF categoryF searchF in
  let found := skipLimit skip (limit pg) (findSorted filter (posts st)) in
  let total := countDocuments filter (posts st) in
  Ok (ok (BPosts found
            {| infoPage := page pg; infoLimit := limit pg; infoTotal := total;
               infoPages := ceilDiv total (limit pg) |})).

(** The route has no authentication middleware: the [Authorization] header
    of the request is not read. *)
Definition listPostsRoute (st : Store) (req : request) : response * Store :=
  match checkValidationResult (listPostsChecks req) with
  | Some res => (res, st)
  | None => asyncHandler (listPostsHandler st req, st)
  end.

(** *** [GET /api/posts/:id] *)

(** The chain is declared with [query('id')]: it reads the query string. *)
Definition getPostChecks (req : request) : list string :=
  chain (queryParam "id" (query req)) false (isMongoId L) "Invalid post ID".

Definition getPostHandler (st : Store) (req : request) : result response * Store :=
  match findById (posts st) (JStr (paramId req)) with
  | Throw e => (Throw e, st)
  | Ok None => (Throw (AppError "Post not found" 404), st)
  | Ok (Some (id, post)) =>
      let '(post', st') := incrementViews id post st in
      (Ok (ok (BPost id post')), st')
  end.

Definition getPostRoute (st : Store) (req : request) : response * Store :=
  match checkValidationResult (getPostChecks req) with
  | Some res => (res, st)
  | None => asyncHandler (getPostHandler st req)
  end.

(** *** [PUT /api/posts/:id] *)

Definition checkCategory (st : Store) (updates : jsval) : result unit :=
  if truthy (getProp updates "category") then
    match findById (categories st) (getProp updates "category") with
    | Throw e => Throw e
    | Ok None => Throw (AppError "Category not found" 404)
    | Ok (Some _) => Ok tt
    end
  else Ok tt.

(** [userId] is [req.user._id], [id] is [req.params.id]. *)
Definition updatePostHandler (st : Store) (userId : string) (id : string)
  (reqBody : jsval) : result response * Store :=
  let updates := sanitizeInput reqBody in
  match findById (posts st) (JStr id) with
  | Throw e => (Throw e, st)
  | Ok None => (Throw (AppError "Post not found" 404), st)
  | Ok (Some (oid, post)) =>
      if negb (String.eqb (author post) userId) then
        (Throw (AppError "You can only edit your own posts" 403), st)
      else
        match checkCategory st updates with
        | Throw e => (Throw e, st)
        | Ok _ =>
            match assignAndSave L post updates with
            | Throw e => (Throw e, st)
            | Ok post' =>
                (Ok (ok (BPostMessage "Post updated successfully" oid post')),
                 savePost oid post' st)
            end
        end
  end.

Definition updatePost (st : Store) (userId : string) (id : string)
  (reqBody : jsval) : response * Store :=
  asyncHandler (updatePostHandler st userId id reqBody).

Definition updatePostRoute (st : Store) (req : request) : response * Store :=
  match auth st req with
  | Respond res => (res, st)
  | Next userId _ =>
      let '(trimmed, errors) := runUpdateChains L (reqBody req) in
      match checkValidationResult errors with
      | Some res => (res, st)
      | None => updatePost st userId (paramId req) trimmed
      end
  end.

(** *** [DELETE /api/posts/:id] *)

Definition deletePostHandler (st : Store) (userId : string) (id : string)
  : result response * Store :=
  match findById (posts st) (JStr id) with
  | Throw e => (Throw e, st)
  | Ok None => (Throw (AppError "Post not found" 404), st)
  | Ok (Some (oid, post)) =>
      if negb (String.eqb (author post) userId) then
        (Throw (AppError "You can only delete your own posts" 403), st)
      else
        (Ok (ok (BMessage "Post deleted successfully")),
         withPosts st (delete oid (posts st)))
  end.

Definition deletePostRoute (st : Store) (req : request) : response * Store :=
  match auth st req with
  | Respond res => (res, st)
  | Next userId _ => asyncHandler (deletePostHandler st userId (paramId req))
  end.

(** *** [POST /api/posts/:id/like] *)

Definition likePostHandler (st : Store) (userId : string) (id : string)
  : result response * Store :=
  match findById (posts st) (JStr id) with
  | Throw e => (Throw e, st)
  | Ok None => (Throw (AppError "Post not found" 404), st)
  | Ok (Some (oid, post)) =>
      let '(post', st') := toggleLike oid post userId st in
      (Ok (ok (BLike "Post like updated" (likeCount post'))), st')
  end.

Definition likePostRoute (st : Store) (req : request) : response * Store :=
  match auth st req with
  | Respond res => (res, st)
  | Next userId _ => asyncHandler (likePostHandler st userId (paramId req))
  end.

(** *** [GET /api/posts/author/:authorId] *)

Definition pageChecks (req : request) : list string :=
  let q := query req in
  chain (queryParam "page" q) true (fun s => isInt L s (Some 1) None)
    "Page must be a positive integer"
  ++ chain (queryParam "limit" q) true (fun s => isInt L s (Some 1) (Some 100))
    "Limit must be between 1 and 100".

Definition authorFilter (authorId : string) (p : Post) : bool :=
  String.eqb (author p) authorId
  && String.eqb (statusName (status p)) "published".

Definition authorPostsHandler (st : Store) (req : request) : result response :=
  let q := query req in
  let* pg := validatePagination (queryParam "page" q) (queryParam "limit" q) in
  let skip := (page pg - 1) * limit pg in
  match castObjectId L (JStr (paramId req)) with
  | None => Throw CastError
  | Some authorId =>
      let filter := authorFilter authorId in
      let found := skipLimit skip (limit pg) (findSorted filter (posts st)) in
      let total := countDocuments filter (posts st) in
      Ok (ok (BPosts found
                {| infoPage := page pg; infoLimit := limit pg;
                   infoTotal := total;
                   infoPages := ceilDiv total (limit pg) |}))
  end.

Definition authorPostsRoute (st : Store) (req : request) : response * Store :=
  match checkValidationResult (pageChecks req) with
  | Some res => (res, st)
  | None => asyncHandler (authorPostsHandler st req, st)
  end.

(** ** routes/users.js *)

(** [Post.deleteMany({ author: id })] *)
Definition deletePostsOf (authorId : string) (coll : gmap string Post)
  : gmap string Post :=
  filter (fun d => author (snd d) <> authorId) coll.

(** *** [DELETE /api/users/:id] *)

Definition deleteUserHandler (st : Store) (userId : string) (id : string)
  : result response * Store :=
  if String.eqb userId id then
    (Throw (AppError "You cannot delete your own account" 400), st)
  else
    match findById (users st) (JStr id) with
    | Throw e => (Throw e, st)
    | Ok None => (Throw (AppError "User not found" 404), st)
    | Ok (Some (oid, _)) =>
        let st1 := withPosts st (deletePostsOf oid (posts st)) in
        let st2 := withUsers st1 (delete oid (users st1)) in
        (Ok (ok (BMessage "User deleted successfully")), st2)
    end.

Definition deleteUserRoute (st : Store) (req : request) : response * Store :=
  match adminAuth st req with
  | Respond res => (res, st)
  | Next userId _ => asyncHandler (deleteUserHandler st userId (paramId req))
  end.

End Server.

(** ** A reference instance of the libraries, and sample data *)

Definition isHexDigit (c : ascii) : bool :=
  isDigit c
  || ((97 <=? code c) && (code c <=? 102))
  || ((65 <=? code c) && (code c <=? 70)).

Definition hex24 (s : string) : bool :=
  (String.length s =? 24)%nat && String.eqb (filterChars isHexDigit s) s.

Fixpoint lowerCase (s : string) : string :=
  match s with
  | String c s' => String (toLower c) (lowerCase s')
  | EmptyString => EmptyString
  end.

Fixpoint containsCI (p s : string) : bool :=
  startsWithCI (lowerCase p) s
  || match s with
     | String _ s' => containsCI p s'
     | EmptyString => false
     end.

(** Integer literals, read as [ToNumber] reads them. *)
Definition allDigits (s : string) : bool :=
  startsWithDigit 10 s && digitsOnly s.

Definition stringToNumber (s : string) : option Z :=
  let t := trim s in
  match t with
  | EmptyString => Some 0
  | String "-" d => if allDigits d then Some (- parseDigits 10 0 d) else None
  | String "+" d => if allDigits d then Some (parseDigits 10 0 d) else None
  | _ => if allDigits t then Some (parseDigits 10 0 t) else None
  end.

Definition inRange (z : Z) (lo hi : option Z) : bool :=
  match lo with Some a => a <=? z | None => true end
  && match hi with Some b => z <=? b | None => true end.

(** Tokens of the reference instance are the text [exp=N;sub=ID], with [N]
    the expiry in seconds, or [sub=ID] for a token without expiry. *)
Definition refSign (payload : jsval) (expiresIn : Z) (issuer audience : string)
  (now : Z) : result string :=
  Ok ("exp=" +:+ decimal (now / 1000 + expiresIn) +:+ ";sub="
      +:+ toString (getProp payload "userId")).

Fixpoint afterSub (s : string) : option string :=
  if startsWith "sub=" s then Some (dropChars 4 s)
  else
    match s with
    | String _ s' => afterSub s'
    | EmptyString => None
    end.

Definition refDecode (token : string) : result jsval :=
  match afterSub token with
  | Some id =>
      if startsWith "exp=" token then
        Ok (JObj [("userId", JStr id);
                  ("exp", JNum (parseDigits 10 0 (dropChars 4 token)))])
      else Ok (JObj [("userId", JStr id)])
  | None => Ok JNull
  end.

Definition refVerify (token : string) : verified :=
  match refDecode token with
  | Ok (JObj claims) => Verified (JObj claims)
  | _ => JsonWebTokenError
  end.

(** The text express-validator makes of a value. *)
Definition stringify (v : jsval) : string :=
  match v with
  | JUndefined | JNull => ""
  | _ => toString v
  end.

Definition refFieldTexts (v : jsval) : list string :=
  match v with
  | JArr elems => List.map stringify elems
  | _ => [stringify v]
  end.

Fixpoint allStrings (l : list jsval) : option (list string) :=
  match l with
  | [] => Some []
  | JStr s :: l' => option_map (cons s) (allStrings l')
  | _ => None
  end.

(** An array of strings is cast to [$in]; the setters of the slug make its
    filter value lower case and trim it. *)
Definition refCastQuery (path : string) (v : jsval) : option (string -> bool) :=
  match v with
  | JStr s =>
      if String.eqb path "slug" then Some (String.eqb (trim (toLowerCase s)))
      else None
  | JArr elems =>
      match allStrings elems with
      | Some ss =>
          if String.eqb path "category" then
            if forallb hex24 ss then
              Some (fun x => existsb (String.eqb x) (List.map lowerCase ss))
            else None
          else Some (fun x => existsb (String.eqb x) ss)
      | None => None
      end
  | _ => None
  end.

(** The chains of [PUT /posts/:id] on a body given as an object: [title]
    and [content] trimmed, then the checks in the order of the route. *)
Definition refChain (field : jsval) (validator : string -> bool)
  (message : string) : list string :=
  match field with
  | JUndefined => []
  | _ =>
      flat_map (fun s => if validator s then [] else [message])
        (refFieldTexts field)
  end.

Definition refTrim (key : string) (v : jsval) : jsval :=
  match v with
  | JStr s =>
      if String.eqb key "title" || String.eqb key "content" then JStr (trim s)
      else v
  | JArr elems =>
      if String.eqb key "tags" then
        JArr (List.map (fun e => match e with
                                 | JStr t => JStr (trim t)
                                 | _ => e
                                 end) elems)
      else v
  | _ => v
  end.

Definition lengthWithin (lo hi : Z) (s : string) : bool :=
  inRange (Z.of_nat (String.length s)) (Some lo) (Some hi).

Definition refUpdateChains (b : jsval) : jsval * list string :=
  match b with
  | JObj props =>
      let trimmed := List.map (fun kv => (fst kv, refTrim (fst kv) (snd kv))) props in
      let field := fun k => lookupProp k trimmed in
      (JObj trimmed,
       refChain (field "title") (lengthWithin 3 200)
         "Title must be between 3 and 200 characters"
       ++ refChain (field "content") (lengthWithin 10 10000)
            "Content must be between 10 and 10000 characters"
       ++ refChain (field "category") hex24 "Valid category ID is required"
       ++ refChain (field "status") (isIn ["draft"; "published"; "archived"])
            "Invalid status"
       ++ match field "tags" with
          | JUndefined => []
          | JArr elems =>
              flat_map (fun e => if lengthWithin 0 50 (stringify e) then []
                                 else ["Tag cannot exceed 50 characters"]) elems
          | _ => ["Tags must be an array"]
          end
       ++ refChain (field "featured") (isIn ["true"; "false"; "1"; "0"])
            "Featured must be a boolean")
  | _ => (b, [])
  end.

Definition refLibs : Libs :=
  {| jwt_sign := refSign;
     jwt_verify := refVerify;
     jwt_decode := refDecode;
     castObjectId := fun v =>
       match v with
       | JStr s => if hex24 s then Some (lowerCase s) else None
       | _ => None
       end;
     castQuery := refCastQuery;
     assignAndSave := fun p _ => Ok p;
     regexTest := containsCI;
     lessThanNumber := fun v n =>
       match v with
       | JStr t =>
           match stringToNumber t with
           | Some z => z <? n
           | None => false
           end
       | JBool b => (if b then 1 else 0) <? n
       | JNull => 0 <? n
       | _ => false
       end;
     isInt := fun s lo hi =>
       match stringToNumber s with
       | Some z => negb (String.eqb s "") && inRange z lo hi
       | None => false
       end;
     isMongoId := hex24;
     isLength := fun s lo hi =>
       inRange (Z.of_nat (String.length s)) (Some lo) (Some hi);
     fieldTexts := refFieldTexts;
     runUpdateChains := refUpdateChains |}.

Definition refConfig : Config := {| jwtExpiresIn := 604800 |}.

Definition adminId : string := "aaaaaaaaaaaaaaaaaaaaaaaa".
Definition aliceId : string := "0123456789abcdef01234567".
Definition bobId : string := "bbbbbbbbbbbbbbbbbbbbbbbb".
Definition draftId : string := "5f0000000000000000000001".
Definition postId : string := "5f0000000000000000000002".

Definition mkUser (name : string) (r : Role) : User :=
  {| username := name; email := name +:+ "@example.com"; role := r;
     isActive := true |}.

Definition mkPost (t : string) (a : string) (s : Status) (v : Z)
  (l : list string) (created : Z) : Post :=
  {| title := t; content := "Some content"; author := a;
     category := "cccccccccccccccccccccccc"; slug := "a-post"; status := s;
     tags := []; featured := false; views := v; likes := l; comments := [];
     createdAt := created |}.

Definition sampleStore : Store :=
  {| users := <[adminId := mkUser "admin" RoleAdmin]>
                (<[aliceId := mkUser "alice" RoleUser]>
                   (<[bobId := mkUser "bob" RoleUser]> ∅));
     posts := <[draftId := mkPost "Draft Post" aliceId Draft 5 [] 1000]>
                (<[postId := mkPost "Test Post" aliceId Published 10 [] 2000]> ∅);
     categories := ∅ |}.

Definition tokenOf (id : string) : string := "exp=4102444800;sub=" +:+ id.

Definition sampleRequest (caller : option string) (id : string)
  (q : list (string * string)) : request :=
  {| authorization := option_map (fun c => "Bearer " +:+ tokenOf c) caller;
     paramId := id; query := List.map (fun kv => (fst kv, JStr (snd kv))) q;
     reqBody := JObj [("title", JStr "Changed")] |}.

(** ** More of utils/validation.js *)

(** [/^[0-9a-fA-F]{24}$/.test(id)]: the argument is turned into a string. *)
Definition isValidObjectId (id : jsval) : bool := hex24 (toString id).

(** [[^\s@]]: neither white space nor the at sign. *)
Definition emailChar (c : ascii) : bool :=
  negb (isWhiteSpace c) && negb (Ascii.eqb c "@").

Fixpoint allChars (ok : ascii -> bool) (s : string) : bool :=
  match s with
  | String c s' => ok c && allChars ok s'
  | EmptyString => true
  end.

(** The text before the first [c] and the text after it. *)
Fixpoint splitFirst (c : ascii) (s : string) : option (string * string) :=
  match s with
  | String a s' =>
      if Ascii.eqb a c then Some (EmptyString, s')
      else
        match splitFirst c s' with
        | Some (l, r) => Some (String a l, r)
        | None => None
        end
  | EmptyString => None
  end.

(** A dot that is neither the first nor the last character. *)
Fixpoint dotBeforeEnd (s : string) : bool :=
  match s with
  | String c (String _ _ as s') => Ascii.eqb c "." || dotBeforeEnd s'
  | _ => false
  end.

Definition innerDot (s : string) : bool :=
  match s with
  | String _ s' => dotBeforeEnd s'
  | EmptyString => false
  end.

(** [/^[^\s@]+@[^\s@]+\.[^\s@]+$/.test(email)]: the first run cannot hold
    an at sign, so the at sign of the pattern is the first one of the
    text. *)
Definition isValidEmail (email : jsval) : bool :=
  match splitFirst "@" (toString email) with
  | Some (l, d) =>
      negb (String.eqb l "") && allChars emailChar l
      && allChars emailChar d && innerDot d
  | None => false
  end.

(** The first character, if any, is no white space. *)
Definition noLeadingSpace (s : string) : Prop :=
  match s with
  | String c _ => isWhiteSpace c = false
  | EmptyString => True
  end.

(** The characters [sanitizeInput] has something to do with. *)
Definition plainChar (c : ascii) : bool :=
  negb (isAngle c) && negb (Ascii.eqb c ":") && negb (Ascii.eqb c "=").

(** Every string value inside [v] satisfies [ok]; property names are not
    looked at. *)
Fixpoint everyString (ok : string -> bool) (v : jsval) : bool :=
  match v with
  | JStr s => ok s
  | JArr elems => forallb (everyString ok) elems
  | JObj props => forallb (fun kv => everyString ok (snd kv)) props
  | _ => true
  end.

(** ** More of models/Post.js *)

(** [s.replace(/C+/g, '-')] for a class [C] of characters: every maximal run
    of characters of the class becomes one hyphen.  [inRun] tells that the
    character before belongs to the class. *)
Fixpoint replaceRuns (cls : ascii -> bool) (inRun : bool) (s : string) : string :=
  match s with
  | String c s' =>
      if cls c then
        if inRun then replaceRuns cls true s'
        else String "-" (replaceRuns cls true s')
      else String c (replaceRuns cls false s')
  | EmptyString => EmptyString
  end.

Definition isHyphen (c : ascii) : bool := Ascii.eqb c "-".

(** The characters [/[^a-z0-9\s-]/g] leaves. *)
Definition slugChar (c : ascii) : bool :=
  isLower c || isDigit c || isWhiteSpace c || isHyphen c.

(** The slug of the [pre('save')] hook, of posts and of categories alike.
    [trim] takes no argument: the ['-'] passed to it is ignored. *)
Definition slugify (title : string) : string :=
  trim
    (replaceRuns isHyphen false
       (replaceRuns isWhiteSpace false
          (filterChars slugChar (toLowerCase title)))).

(** The characters of the pattern [/^[a-z0-9-]+$/] of the schema. *)
Definition slugPatternChar (c : ascii) : bool :=
  isLower c || isDigit c || isHyphen c.

(** No two hyphens in a row; [prev] tells that a hyphen precedes [s]. *)
Fixpoint hyphensApart (prev : bool) (s : string) : bool :=
  match s with
  | String c s' => negb (prev && isHyphen c) && hyphensApart (isHyphen c) s'
  | EmptyString => true
  end.

(** [s.split(' ')] *)
Fixpoint splitSpaces (s : string) : list string :=
  match s with
  | String c s' =>
      if Ascii.eqb c " " then EmptyString :: splitSpaces s'
      else
        match splitSpaces s' with
        | w :: ws => String c w :: ws
        | [] => [String c EmptyString]
        end
  | EmptyString => [EmptyString]
  end.

(** The virtual [readingTime]. *)
Definition readingTime (p : Post) : Z :=
  let wordsPerMinute := 200 in
  let wordCount := Z.of_nat (length (splitSpaces (content p))) in
  ceilDiv wordCount wordsPerMinute.





(** [this.find({ status: 'published' }).sort({ createdAt: -1 })] *)
Definition findPublished (coll : gmap string Post) : list (string * Post) :=
  findSorted (fun p => String.eqb (statusName (status p)) "published") coll.

(** [findByCategory] *)
Definition findByCategory (categoryId : string) (coll : gmap string Post)
  : list (string * Post) :=
  findSorted
    (fun p => String.eqb (category p) categoryId
              && String.eqb (statusName (status p)) "published") coll.

(** ** More of utils/auth.js, middleware/auth.js and the routers *)

(** A [Date]: its time value in milliseconds, [None] for an invalid date. *)
Definition timeClip (t : Z) : option Z :=
  if Z.abs t <=? 8640000000000000 then Some t else None.

Inductive owned (A : Type) : Type :=
  | Owned (id : string) (resource : A)
  | Refused (res : response).
Arguments Owned {A} id resource.
Arguments Refused {A} res.

(** The group computed by the aggregation of [GET /users/:id/stats]. *)
Record userStats : Type := {
  totalPosts : Z;
  totalViews : Z;
  totalLikes : Z;
  totalComments : Z;
  publishedPosts : Z;
  draftPosts : Z;
  archivedPosts : Z
}.

(** The bodies of the routes of users: those of [body], a user record, or a
    user record with its statistics. *)
Inductive userBody : Type :=
  | UBody (b : body)
  | UUser (id : string) (user : User)
  | UStats (id : string) (user : User) (stats : userStats).

Record userResponse : Type := { userStatus : Z; userJson : userBody }.

Definition liftResponse (res : response) : userResponse :=
  {| userStatus := statusCode res; userJson := UBody (json res) |}.

(** [$sum] of a field over documents, and [$sum] of a [$cond] on the
    status. *)
Definition sumOver (f : Post -> Z) (docs : list (string * Post)) : Z :=
  foldr (fun d acc => f (snd d) + acc) 0 docs.

Definition hasStatus (s : Status) (p : Post) : Z :=
  if String.eqb (statusName (status p)) (statusName s) then 1 else 0.

(** [Post.aggregate([{ $match: { author } }, { $group: { _id: null, ... } }])]:
    no group when no document matches. *)
Definition aggregateStats (authorId : string) (coll : gmap string Post)
  : list userStats :=
  match List.filter (fun d => String.eqb (author (snd d)) authorId)
          (map_to_list coll) with
  | [] => []
  | docs =>
      [{| totalPosts := sumOver (fun _ => 1) docs;
          totalViews := sumOver views docs;
          totalLikes := sumOver (fun p => Z.of_nat (length (likes p))) docs;
          totalComments := sumOver (fun p => Z.of_nat (length (comments p))) docs;
          publishedPosts := sumOver (hasStatus Published) docs;
          draftPosts := sumOver (hasStatus Draft) docs;
          archivedPosts := sumOver (hasStatus Archived) docs |}]
  end.

Definition noStats : userStats :=
  {| totalPosts := 0; totalViews := 0; totalLikes := 0; totalComments := 0;
     publishedPosts := 0; draftPosts := 0; archivedPosts := 0 |}.

Section ServerMore.

Variable L : Libs.

(** [timesNumber v n] is the product [v * n] of the language for a value [v]
    that is no Number, [None] for NaN. *)
Variable timesNumber : jsval -> Z -> option Z.

Definition times (v : jsval) (n : Z) : option Z :=
  match v with
  | JNum z => Some (z * n)
  | _ => timesNumber v n
  end.

(** [getTokenExpiration]: [None] is [null], [Some d] the date [d]. *)
Definition getTokenExpiration (token : string) : option (option Z) :=
  match jwt_decode L token with
  | Ok decoded =>
      if negb (truthy decoded) || negb (truthy (getProp decoded "exp")) then None
      else
        Some (match times (getProp decoded "exp") 1000 with
              | Some t => timeClip t
              | None => None
              end)
  | Throw _ => None
  end.

(** [optionalAuth]: the user put in [req.user], if any; the request goes on
    in every case. *)
Definition optionalAuth (st : Store) (req : request) : option (string * User) :=
  match option_map (removeFirst "Bearer ") (authorization req) with
  | None | Some EmptyString => None
  | Some token =>
      match jwt_verify L token with
      | Verified decoded =>
          match findById L (users st) (getProp decoded "userId") with
          | Ok (Some (id, user)) => if isActive user then Some (id, user) else None
          | _ => None
          end
      | _ => None
      end
  end.

(** [checkOwnership(model, field)] for a caller [userId] put in [req.user]
    by [auth]; [field] reads the owner of a resource. *)
Definition checkOwnership {A} (coll : gmap string A) (field : A -> string)
  (userId : string) (id : string) : owned A :=
  match findById L coll (JStr id) with
  | Ok None =>
      Refused {| statusCode := 404; json := BError "Resource not found." |}
  | Ok (Some (oid, resource)) =>
      if negb (String.eqb (field resource) userId) then
        Refused {| statusCode := 403;
                   json := BError "Access denied. You can only modify your own resources." |}
      else Owned oid resource
  | Throw _ =>
      Refused {| statusCode := 500; json := BError "Ownership verification failed." |}
  end.

(** *** [GET /api/posts/slug/:slug] *)



(** ** More of routes/users.js *)

(** The check [req.user.role !== 'admin' && req.user._id.toString() !== id]
    of the routes of one user. *)
Definition accessDenied (callerId : string) (caller : User) (id : string) : bool :=
  negb (isAdmin caller) && negb (String.eqb callerId id).

Definition asyncUserHandler (r : result userResponse) : userResponse :=
  match r with
  | Ok res => res
  | Throw e => liftResponse (errorHandler e)
  end.

(** *** [GET /api/users/:id] *)

Definition getUserHandler (st : Store) (callerId : string) (caller : User)
  (id : string) : result userResponse :=
  if accessDenied callerId caller id then Throw (AppError "Access denied" 403)
  else
    match findById L (users st) (JStr id) with
    | Throw e => Throw e
    | Ok None => Throw (AppError "User not found" 404)
    | Ok (Some (oid, user)) => Ok {| userStatus := 200; userJson := UUser oid user |}
    end.

(** The chain is declared with [query('id')], as for posts. *)
Definition getUserRoute (st : Store) (req : request) : userResponse :=
  match auth L st req with
  | Respond res => liftResponse res
  | Next callerId caller =>
      match checkValidationResult
              (chain L (queryParam "id" (query req)) false (isMongoId L)
                 "Invalid user ID") with
      | Some res => liftResponse res
      | None => asyncUserHandler (getUserHandler st callerId caller (paramId req))
      end
  end.

(** *** [GET /api/users/:id/posts] *)

Definition ownPostsFilter (authorId : string)
  (statusF : option (string -> bool)) (p : Post) : bool :=
  String.eqb (author p) authorId
  && match statusF with
     | Some s => s (statusName (status p))
     | None => true
     end.

Definition userPostsHandler (st : Store) (callerId : string) (caller : User)
  (req : request) : result response :=
  let q := query req in
  let statusArg := queryParam "status" q in
  if accessDenied callerId caller (paramId req) then
    Throw (AppError "Access denied" 403)
  else
    match findById L (users st) (JStr (paramId req)) with
    | Throw e => Throw e
    | Ok None => Throw (AppError "User not found" 404)
    | Ok (Some (oid, _)) =>
        let* pg := validatePagination (queryParam "page" q) (queryParam "limit" q) in
        let skip := (page pg - 1) * limit pg in
        let* statusF :=
          (if truthy statusArg then
             let* f := castString L "status" statusArg in Ok (Some f)
           else Ok None) in
        let filter := ownPostsFilter oid statusF in
        let found := skipLimit skip (limit pg) (findSorted filter (posts st)) in
        let total := countDocuments filter (posts st) in
        Ok (ok (BPosts found
                  {| infoPage := page pg; infoLimit := limit pg;
                     infoTotal := total;
                     infoPages := ceilDiv total (limit pg) |}))
    end.

Definition userPostsChecks (req : request) : list string :=
  pageChecks L req
  ++ chain L (queryParam "status" (query req)) true
       (isIn ["draft"; "published"; "archived"]) "Invalid status".

Definition userPostsRoute (st : Store) (req : request) : response :=
  match auth L st req with
  | Respond res => res
  | Next callerId caller =>
      match checkValidationResult (userPostsChecks req) with
      | Some res => res
      | None => fst (asyncHandler (userPostsHandler st callerId caller req, st))
      end
  end.

(** *** [GET /api/users/:id/stats] *)

Definition userStatsHandler (st : Store) (callerId : string) (caller : User)
  (id : string) : result userResponse :=
  if accessDenied callerId caller id then Throw (AppError "Access denied" 403)
  else
    match findById L (users st) (JStr id) with
    | Throw e => Throw e
    | Ok None => Throw (AppError "User not found" 404)
    | Ok (Some (oid, user)) =>
        let stats := aggregateStats oid (posts st) in
        let userStats := match stats with s :: _ => s | [] => noStats end in
        Ok {| userStatus := 200; userJson := UStats oid user userStats |}
    end.


End ServerMore.

(** * Properties *)

(** ** Characters and decimal digits *)

Lemma code_chr z : 0 <= z < 256 -> code (chr z) = z.
Proof.
  intros Hz. unfold code, chr.
  rewrite N_ascii_embedding; [lia|].
  change 256%N with (Z.to_N 256). lia.
Qed.

Lemma isDigit_digitChar d : 0 <= d < 10 -> isDigit (digitChar d) = true.
Proof.
  intros Hd. unfold isDigit, digitChar. rewrite code_chr by lia.
  apply andb_true_intro; split; apply Z.leb_le; lia.
Qed.

Lemma digitValue_digitChar d : 0 <= d < 10 -> digitValue (digitChar d) = Some d.
Proof.
  intros Hd. unfold digitValue. rewrite isDigit_digitChar by done.
  unfold digitChar. rewrite code_chr by lia. f_equal. lia.
Qed.

Lemma isDigit_not_space c : isDigit c = true -> isWhiteSpace c = false.
Proof.
  unfold isDigit, isWhiteSpace. intros [H1 H2]%andb_prop.
  apply Z.leb_le in H1, H2.
  repeat (apply orb_false_intro); try (apply Z.eqb_neq; lia).
  apply andb_false_intro2. apply Z.leb_gt. lia.
Qed.

Lemma isDigit_toLower c : isDigit c = true -> toLower c = c.
Proof.
  unfold isDigit, toLower, isUpper. intros [H1 H2]%andb_prop.
  apply Z.leb_le in H1, H2.
  replace (65 <=? code c) with false; [done|].
  symmetry. apply Z.leb_gt. lia.
Qed.

Lemma isDigit_ne c c' : isDigit c = true -> isDigit c' = false -> Ascii.eqb c' c = false.
Proof.
  intros H1 H2. apply Ascii.eqb_neq. intros ->. congruence.
Qed.

Lemma digitsAcc_digitsOnly fuel : forall n acc,
  0 <= n -> digitsOnly acc = true -> digitsOnly (digitsAcc fuel n acc) = true.
Proof.
  induction fuel as [|f IH]; intros n acc Hn Hacc; simpl; [done|].
  assert (Hd : digitsOnly (String (digitChar (n mod 10)) acc) = true).
  { simpl. rewrite isDigit_digitChar, Hacc; [done|].
    apply Z.mod_pos_bound. lia. }
  destruct (n <? 10); [done|].
  apply IH; [|done]. apply Z.div_pos; lia.
Qed.

Lemma digitsAcc_cons fuel : forall n c acc,
  exists c' s', digitsAcc fuel n (String c acc) = String c' s'.
Proof.
  induction fuel as [|f IH]; intros n c acc; simpl; [by eauto|].
  destruct (n <? 10); [by eauto|]. apply IH.
Qed.

Lemma decimal_shape n :
  0 <= n -> exists c s, decimal n = String c s /\ isDigit c = true /\ digitsOnly s = true.
Proof.
  intros Hn. unfold decimal.
  pose proof (digitsAcc_digitsOnly (S (Z.to_nat (Z.log2 n))) n "" Hn eq_refl) as Hd.
  assert (exists c s, digitsAcc (S (Z.to_nat (Z.log2 n))) n "" = String c s)
    as (c & s & Heq).
  { simpl. destruct (n <? 10); [by eauto|]. apply digitsAcc_cons. }
  rewrite Heq in Hd |- *. simpl in Hd. apply andb_prop in Hd as [? ?].
  by exists c, s.
Qed.

Lemma parseDigits_digitsAcc fuel : forall n acc,
  0 <= n < 10 ^ Z.of_nat fuel ->
  parseDigits 10 0 (digitsAcc fuel n acc) = parseDigits 10 n acc.
Proof.
  induction fuel as [|f IH]; intros n acc Hn.
  - simpl in *. f_equal. lia.
  - cbn [digitsAcc].
    assert (Hmod : 0 <= n mod 10 < 10) by (apply Z.mod_pos_bound; lia).
    destruct (n <? 10) eqn:Hlt.
    + apply Z.ltb_lt in Hlt. rewrite Z.mod_small by lia.
      cbn [parseDigits]. rewrite digitValue_digitChar by lia.
      replace (n <? 10) with true by (symmetry; apply Z.ltb_lt; lia).
      f_equal.
    + apply Z.ltb_ge in Hlt. rewrite IH.
      * cbn [parseDigits]. rewrite digitValue_digitChar by lia.
        replace (n mod 10 <? 10) with true by (symmetry; apply Z.ltb_lt; lia).
        f_equal. pose proof (Z.div_mod n 10). lia.
      * split; [apply Z.div_pos; lia|].
        apply Z.div_lt_upper_bound; [lia|].
        rewrite Nat2Z.inj_succ, Z.pow_succ_r in Hn by lia. lia.
Qed.

Lemma decimal_fuel n : 0 <= n -> n < 10 ^ Z.of_nat (S (Z.to_nat (Z.log2 n))).
Proof.
  intros Hn. rewrite Nat2Z.inj_succ, Z2Nat.id by apply Z.log2_nonneg.
  destruct (Z.eq_dec n 0) as [->|Hne]; [done|].
  pose proof (Z.log2_spec n ltac:(lia)) as [_ Hup].
  eapply Z.lt_le_trans; [exact Hup|].
  apply Z.pow_le_mono_l. pose proof (Z.log2_nonneg n). lia.
Qed.

Lemma parseDigits_decimal n : 0 <= n -> parseDigits 10 0 (decimal n) = n.
Proof.
  intros Hn. unfold decimal. rewrite parseDigits_digitsAcc.
  - done.
  - split; [done|]. by apply decimal_fuel.
Qed.

Lemma splitSign_digit c s : isDigit c = true -> splitSign (String c s) = (1, String c s).
Proof.
  intros Hc. destruct c as [b0 b1 b2 b3 b4 b5 b6 b7].
  destruct b0, b1, b2, b3, b4, b5, b6, b7;
    vm_compute in Hc; try discriminate Hc; reflexivity.
Qed.

Lemma splitRadix_digits c s :
  isDigit c = true -> digitsOnly s = true ->
  splitRadix (String c s) = (10, String c s).
Proof.
  intros Hc Hs. unfold splitRadix.
  replace (startsWithCI "0x" (String c s)) with false; [done|].
  symmetry. cbn [startsWithCI]. destruct s as [|c2 s'].
  - apply andb_false_r.
  - cbn [digitsOnly] in Hs. apply andb_prop in Hs as [Hc2 _].
    rewrite (isDigit_toLower c2 Hc2).
    rewrite (isDigit_ne c2 "x" Hc2 eq_refl). by rewrite andb_false_r.
Qed.

Lemma startsWithDigit_digit c s : isDigit c = true -> startsWithDigit 10 (String c s) = true.
Proof.
  intros Hc. unfold startsWithDigit, digitValue. rewrite Hc.
  unfold isDigit in Hc. apply andb_prop in Hc as [H1 H2].
  apply Z.leb_le in H1, H2. apply Z.ltb_lt. lia.
Qed.

Lemma parseIntString_digits c s :
  isDigit c = true -> digitsOnly s = true ->
  parseIntString (String c s) = Some (parseDigits 10 0 (String c s)).
Proof.
  intros Hc Hs. unfold parseIntString. cbn [trimStart].
  rewrite (isDigit_not_space c Hc), (splitSign_digit c s Hc).
  rewrite (splitRadix_digits c s Hc Hs), (startsWithDigit_digit c s Hc).
  f_equal. lia.
Qed.

(** Below 10^21 a non-negative integer is printed with its digits, and
    [parseInt] reads it back. *)
Lemma parseInt_number n : 0 <= n < 10 ^ 21 -> parseInt (JNum n) = Some n.
Proof.
  intros Hn. unfold parseInt. cbn [toString]. unfold numberToString.
  replace (n <? 0) with false by (symmetry; apply Z.ltb_ge; lia).
  unfold numberToStringAbs.
  replace (n <? 10 ^ 21) with true by (symmetry; apply Z.ltb_lt; lia).
  destruct (decimal_shape n) as (c & s & Heq & Hc & Hs); [lia|].
  rewrite Heq, (parseIntString_digits c s Hc Hs), <- Heq.
  by rewrite parseDigits_decimal by lia.
Qed.

Lemma orDefault_nonzero n d : n <> 0 -> orDefault (Some n) d = n.
Proof.
  intros Hn. unfold orDefault.
  by replace (n =? 0) with false by (symmetry; apply Z.eqb_neq; lia).
Qed.

(** ** [validatePagination] *)

(** C3.  [validatePagination] does not fail on a page or a limit of 0: the
    value 0 is falsy, so [parseInt(page) || 1] and [parseInt(limit) || 10]
    replace it by the default, as if the argument were absent.  Of
    [validatePagination(0, 10)], [validatePagination(1, 0)] and
    [validatePagination(1, 101)] only the last one throws; a negative page
    throws too. *)
Theorem validatePagination_zero_is_defaulted :
  validatePagination (JNum 0) (JNum 10) = Ok {| page := 1; limit := 10 |}
  /\ validatePagination (JNum 1) (JNum 0) = Ok {| page := 1; limit := 10 |}
  /\ validatePagination (JNum 1) (JNum 101)
     = Throw (JsError "Limit must be between 1 and 100")
  /\ validatePagination (JNum (-1)) (JNum 10)
     = Throw (JsError "Page number must be greater than 0")
  /\ (forall limit,
        validatePagination (JNum 0) limit = validatePagination JUndefined limit)
  /\ (forall page,
        validatePagination page (JNum 0) = validatePagination page JUndefined).
Proof. repeat split; reflexivity. Qed.

(** C9, as stated, fails at page 10^21: [parseInt] prints its argument
    first, 10^21 is printed [1e+21], and the digits read back are [1]. *)
Lemma validatePagination_page_1e21 :
  1 <= 10 ^ 21 /\ 1 <= 10 <= 100
  /\ toString (JNum (10 ^ 21)) = "1e+21"
  /\ validatePagination (JNum (10 ^ 21)) (JNum 10)
     = Ok {| page := 1; limit := 10 |}
  /\ validatePagination (JNum (10 ^ 21)) (JNum 10)
     <> Ok {| page := 10 ^ 21; limit := 10 |}.
Proof.
  split; [lia|]. split; [lia|]. split; [reflexivity|].
  split; [reflexivity|]. vm_compute. discriminate.
Qed.

(** C9, amended.  For an integer page with [1 <= page < 10^21] and an
    integer limit in [1, 100], [validatePagination] returns the pair
    unchanged; with both arguments absent it returns page 1 and limit 10. *)
Theorem validatePagination_normalized (p l : Z) :
  1 <= p < 10 ^ 21 -> 1 <= l <= 100 ->
  validatePagination (JNum p) (JNum l) = Ok {| page := p; limit := l |}
  /\ validatePagination JUndefined JUndefined = Ok {| page := 1; limit := 10 |}.
Proof.
  intros Hp Hl. split; [|reflexivity].
  unfold validatePagination.
  rewrite (parseInt_number p) by lia.
  rewrite (parseInt_number l) by lia.
  rewrite !orDefault_nonzero by lia.
  replace (p <? 1) with false by (symmetry; apply Z.ltb_ge; lia).
  replace (l <? 1) with false by (symmetry; apply Z.ltb_ge; lia).
  replace (l >? 100) with false; [done|].
  symmetry. rewrite Z.gtb_ltb. apply Z.ltb_ge. lia.
Qed.

Lemma validatePagination_normalized_witness :
  validatePagination (JNum 3) (JNum 20) = Ok {| page := 3; limit := 20 |}
  /\ validatePagination JUndefined JUndefined = Ok {| page := 1; limit := 10 |}.
Proof. apply (validatePagination_normalized 3 20); lia. Defined.

(** ** [sanitizeInput] on arrays *)

Lemma decimal_not_proto n : 0 <= n -> String.eqb (decimal n) "__proto__" = false.
Proof.
  intros Hn. destruct (decimal_shape n Hn) as (c & s & -> & Hc & _).
  cbn [String.eqb]. by rewrite Ascii.eqb_sym, (isDigit_ne c "_" Hc eq_refl).
Qed.

Lemma assignProps_indexed l : forall i, assignProps (indexed i l) = indexed i l.
Proof.
  unfold assignProps. induction l as [|v l IH]; intros i; cbn [indexed List.filter]; [done|].
  cbn [fst]. rewrite decimal_not_proto by lia. cbn [negb]. by rewrite IH.
Qed.

Lemma indexed_keys l : forall i,
  List.map fst (indexed i l)
  = List.map (fun k => decimal (Z.of_nat k)) (seq i (length l)).
Proof.
  induction l as [|v l IH]; intros i; cbn [indexed List.map length seq]; [done|].
  cbn [fst]. by rewrite IH.
Qed.

Lemma indexed_values l : forall i, List.map snd (indexed i l) = l.
Proof.
  induction l as [|v l IH]; intros i; cbn [indexed List.map]; [done|].
  cbn [snd]. by rewrite IH.
Qed.

Lemma sanitizeInput_array elems :
  sanitizeInput (JArr elems) = JObj (indexed 0 (List.map sanitizeInput elems)).
Proof. cbn [sanitizeInput]. by rewrite assignProps_indexed. Qed.

(** Reading a property of a sanitized object gives the sanitized property. *)
Lemma lookupProp_sanitized key props :
  String.eqb key "__proto__" = false ->
  lookupProp key
    (assignProps
       (List.map (fun kv => match kv with
                            | (k, v) => (k, sanitizeInput v)
                            end) props))
  = sanitizeInput (lookupProp key props).
Proof.
  intros Hkey. unfold assignProps.
  induction props as [|[k v] props IH]; cbn [List.map List.filter lookupProp]; [done|].
  cbn [fst]. destruct (String.eqb k key) eqn:Hk.
  - apply String.eqb_eq in Hk as ->. rewrite Hkey. cbn [negb lookupProp].
    by rewrite String.eqb_refl.
  - destruct (negb (String.eqb k "__proto__")); [|done].
    cbn [lookupProp]. by rewrite Hk.
Qed.

(** C10.  [sanitizeInput] turns an array into a plain object: its keys are
    the indices of the array, printed in decimal, its values the sanitized
    elements, and it is no array.  An array-valued field of a request body,
    such as [tags], is therefore an object after the body is sanitized. *)
Theorem sanitizeInput_array_becomes_object (elems : list jsval)
  (props : list (string * jsval)) :
  lookupProp "tags" props = JArr elems ->
  (exists entries,
      sanitizeInput (JArr elems) = JObj entries
      /\ List.map fst entries
         = List.map (fun k => decimal (Z.of_nat k)) (seq 0 (length elems))
      /\ List.map snd entries = List.map sanitizeInput elems)
  /\ isArray (sanitizeInput (JArr elems)) = false
  /\ getProp (sanitizeInput (JObj props)) "tags" = sanitizeInput (JArr elems)
  /\ isArray (getProp (sanitizeInput (JObj props)) "tags") = false.
Proof.
  intros Htags.
  assert (Hfield : getProp (sanitizeInput (JObj props)) "tags"
                   = sanitizeInput (JArr elems)).
  { cbn [sanitizeInput getProp]. rewrite lookupProp_sanitized by reflexivity.
    by rewrite Htags. }
  split; [|split; [|split]].
  - exists (indexed 0 (List.map sanitizeInput elems)).
    split; [apply sanitizeInput_array|]. split.
    + by rewrite indexed_keys, length_map.
    + apply indexed_values.
  - by rewrite sanitizeInput_array.
  - exact Hfield.
  - by rewrite Hfield, sanitizeInput_array.
Qed.

Lemma sanitizeInput_array_becomes_object_witness :
  getProp
    (sanitizeInput
       (JObj [("title", JStr "New Post");
              ("tags", JArr [JStr "technology"; JStr "programming"])]))
    "tags"
  = JObj [("0", JStr "technology"); ("1", JStr "programming")].
Proof.
  destruct (sanitizeInput_array_becomes_object
              [JStr "technology"; JStr "programming"]
              [("title", JStr "New Post");
               ("tags", JArr [JStr "technology"; JStr "programming"])]
              eq_refl) as (_ & _ & Hfield & _).
  rewrite Hfield. reflexivity.
Defined.

(** ** [toggleLike] *)

Lemma indexOf_None u l : indexOf u l = None <-> u ∉ l.
Proof.
  induction l as [|y l IH]; cbn [indexOf].
  - split; [intros _; apply not_elem_of_nil|done].
  - destruct (String.eqb y u) eqn:Hy.
    + apply String.eqb_eq in Hy as ->. split; [done|].
      intros Hn. exfalso. apply Hn. left.
    + apply String.eqb_neq in Hy. rewrite not_elem_of_cons.
      destruct (indexOf u l); cbn [option_map].
      * split; [done|]. intros [_ Hn]. by apply IH in Hn.
      * split; [|done]. intros _. split; [done|]. by apply IH.
Qed.

Lemma indexOf_Some u l i :
  indexOf u l = Some i ->
  l = take i l ++ u :: drop (S i) l /\ u ∉ take i l.
Proof.
  revert i. induction l as [|y l IH]; intros i; cbn [indexOf]; [done|].
  destruct (String.eqb y u) eqn:Hy.
  - apply String.eqb_eq in Hy as ->. intros [= <-]. cbn.
    rewrite drop_0. split; [done|apply not_elem_of_nil].
  - apply String.eqb_neq in Hy.
    destruct (indexOf u l) as [j|] eqn:Hj; cbn [option_map]; [|done].
    intros [= <-]. destruct (IH j eq_refl) as [Hl Hn]. cbn [take drop].
    split.
    + cbn. by rewrite <- Hl.
    + rewrite not_elem_of_cons. split; [done|exact Hn].
Qed.

Lemma toggleLikes_absent u l : u ∉ l -> toggleLikes u l = l ++ [u].
Proof. intros Hn. unfold toggleLikes. by apply indexOf_None in Hn as ->. Qed.

Lemma occurrences_app u l1 l2 :
  occurrences u (l1 ++ l2) = (occurrences u l1 + occurrences u l2)%nat.
Proof. unfold occurrences. by rewrite List.filter_app, length_app. Qed.

Lemma occurrences_here u l : occurrences u (u :: l) = S (occurrences u l).
Proof. unfold occurrences. cbn [List.filter]. by rewrite String.eqb_refl. Qed.

Lemma occurrences_zero u l : occurrences u l = O <-> u ∉ l.
Proof.
  unfold occurrences. induction l as [|y l IH]; cbn [List.filter].
  - split; [intros _; apply not_elem_of_nil|done].
  - rewrite not_elem_of_cons. destruct (String.eqb u y) eqn:Hy.
    + apply String.eqb_eq in Hy as ->. cbn [length]. split; [done|].
      by intros [? _].
    + apply String.eqb_neq in Hy. rewrite IH. tauto.
Qed.

Lemma toggleLikes_present u l :
  u ∈ l ->
  exists l1 l2,
    l = l1 ++ u :: l2 /\ toggleLikes u l = l1 ++ l2 /\ (u ∉ l1)
    /\ S (occurrences u (l1 ++ l2)) = occurrences u l.
Proof.
  intros Hin. unfold toggleLikes.
  destruct (indexOf u l) as [i|] eqn:Hi.
  - destruct (indexOf_Some u l i Hi) as [Hl Hn1].
    exists (take i l), (drop (S i) l). split; [done|]. split; [done|].
    split; [done|]. rewrite Hl at 3.
    rewrite !occurrences_app, occurrences_here. lia.
  - by apply indexOf_None in Hi.
Qed.

Lemma toggleLikes_present_once u l :
  (occurrences u l <= 1)%nat -> u ∈ l ->
  exists l1 l2, l = l1 ++ u :: l2 /\ toggleLikes u l = l1 ++ l2 /\ u ∉ l1 ++ l2.
Proof.
  intros Hocc Hin.
  destruct (toggleLikes_present u l Hin) as (l1 & l2 & Hl & Ht & _ & Hn).
  exists l1, l2. split; [done|]. split; [done|].
  apply occurrences_zero. lia.
Qed.

Lemma indexOf_pushed u l : u ∉ l -> indexOf u (l ++ [u]) = Some (length l).
Proof.
  induction l as [|y l IH]; intros Hn; cbn [indexOf app length].
  - by rewrite String.eqb_refl.
  - apply not_elem_of_cons in Hn as [Hne Hn].
    replace (String.eqb y u) with false
      by (symmetry; apply String.eqb_neq; congruence).
    by rewrite (IH Hn).
Qed.

Lemma toggleLikes_pushed u l : u ∉ l -> toggleLikes u (l ++ [u]) = l.
Proof.
  intros Hn. unfold toggleLikes, splice1. rewrite (indexOf_pushed u l Hn).
  rewrite take_app_length, drop_ge; [by rewrite app_nil_r|].
  rewrite length_app. cbn. lia.
Qed.

Lemma toggleLikes_twice_absent u l :
  u ∉ l -> toggleLikes u (toggleLikes u l) = l.
Proof.
  intros Hn. rewrite (toggleLikes_absent u l Hn). by apply toggleLikes_pushed.
Qed.

Lemma toggleLikes_twice_perm u l :
  (occurrences u l <= 1)%nat -> toggleLikes u (toggleLikes u l) ≡ₚ l.
Proof.
  intros Hocc. destruct (decide (u ∈ l)) as [Hin|Hn].
  - destruct (toggleLikes_present_once u l Hocc Hin) as (l1 & l2 & Hl & -> & Hn).
    rewrite (toggleLikes_absent u _ Hn), Hl, <- app_assoc.
    apply Permutation_app_head. symmetry. apply Permutation_cons_append.
  - by rewrite (toggleLikes_twice_absent u l Hn).
Qed.


(** A user who occurs twice or more in the list occurs twice less after two
    toggles: each one removes the first occurrence. *)
Lemma toggleLikes_twice_repeated u l :
  (2 <= occurrences u l)%nat ->
  (occurrences u (toggleLikes u (toggleLikes u l)) + 2)%nat = occurrences u l.
Proof.
  intros Hocc.
  assert (Hin : u ∈ l).
  { destruct (decide (u ∈ l)) as [|Hn]; [done|].
    apply occurrences_zero in Hn. lia. }
  destruct (toggleLikes_present u l Hin) as (l1 & l2 & _ & Ht & _ & Hn).
  rewrite Ht.
  assert (Hin2 : u ∈ l1 ++ l2).
  { destruct (decide (u ∈ l1 ++ l2)) as [|Hn2]; [done|].
    apply occurrences_zero in Hn2. lia. }
  destruct (toggleLikes_present u _ Hin2) as (l3 & l4 & _ & Ht2 & _ & Hn2).
  rewrite Ht2. lia.
Qed.




(** ** [isTokenExpired] *)

(** C7.  [isTokenExpired] answers [true] for a text that [jwt.decode] does
    not parse (it returns [null], or throws) and for a token whose payload
    has no [exp] claim; it answers [false] for a token just made by
    [generateToken], whose [exp] claim is the second of issue plus the
    configured lifetime, as long as the current second is not after it. *)
Theorem isTokenExpired_fail_closed (L : Libs) (cfg : Config) (now : Z)
  (bad noexp fresh : string) (decoded claims : jsval)
  (id : string) (user : User) (issuedAt : Z) :
  (jwt_decode L bad = Ok JNull \/ exists e, jwt_decode L bad = Throw e) ->
  jwt_decode L noexp = Ok decoded ->
  getProp decoded "exp" = JUndefined ->
  generateToken L cfg id user issuedAt = Ok fresh ->
  jwt_decode L fresh = Ok claims ->
  getProp claims "exp" = JNum (issuedAt / 1000 + jwtExpiresIn cfg) ->
  issuedAt / 1000 + jwtExpiresIn cfg <> 0 ->
  now / 1000 <= issuedAt / 1000 + jwtExpiresIn cfg ->
  isTokenExpired L bad now = true
  /\ isTokenExpired L noexp now = true
  /\ isTokenExpired L fresh now = false.
Proof.
  intros Hbad Hnoexp Hmissing _ Hfresh Hexp Hnz Hnow.
  unfold isTokenExpired. split; [|split].
  - destruct Hbad as [-> | [e ->]]; reflexivity.
  - rewrite Hnoexp, Hmissing. cbn [truthy negb]. by rewrite orb_true_r.
  - rewrite Hfresh, Hexp.
    assert (Hobj : truthy claims = true).
    { destruct claims; try discriminate Hexp; reflexivity. }
    rewrite Hobj. cbn [truthy negb orb].
    replace (issuedAt / 1000 + jwtExpiresIn cfg =? 0) with false
      by (symmetry; apply Z.eqb_neq; lia).
    cbn [negb]. unfold lessThan. apply Z.ltb_ge. lia.
Qed.

Lemma isTokenExpired_fail_closed_witness :
  isTokenExpired refLibs "invalid-token" 1700000005000 = true
  /\ isTokenExpired refLibs "sub=0123456789abcdef01234567" 1700000005000 = true
  /\ isTokenExpired refLibs
       "exp=1700604800;sub=0123456789abcdef01234567" 1700000005000 = false.
Proof.
  apply (isTokenExpired_fail_closed refLibs refConfig 1700000005000
           "invalid-token" "sub=0123456789abcdef01234567"
           "exp=1700604800;sub=0123456789abcdef01234567"
           (JObj [("userId", JStr "0123456789abcdef01234567")])
           (JObj [("userId", JStr "0123456789abcdef01234567");
                  ("exp", JNum 1700604800)])
           aliceId (mkUser "alice" RoleUser) 1700000000000).
  - left. reflexivity.
  - reflexivity.
  - reflexivity.
  - reflexivity.
  - reflexivity.
  - reflexivity.
  - vm_compute. discriminate.
  - vm_compute. discriminate.
Defined.

(** ** The routes of posts *)

Lemma checkValidationResult_Some errors res :
  checkValidationResult errors = Some res ->
  res = {| statusCode := 400; json := BValidationFailed errors |}.
Proof. destruct errors; [done|]. by intros [= <-]. Qed.

Lemma checkValidationResult_400 errors res :
  checkValidationResult errors = Some res -> statusCode res = 400.
Proof. by intros ->%checkValidationResult_Some. Qed.

Lemma findById_found (L : Libs) {A} (coll : gmap string A) id oid d :
  castObjectId L (JStr id) = Some oid -> coll !! oid = Some d ->
  findById L coll (JStr id) = Ok (Some (oid, d)).
Proof. intros Hcast Hd. unfold findById. by rewrite Hcast, Hd. Qed.

Lemma validateSearchQuery_throws q e :
  validateSearchQuery q = Throw e -> exists m, e = JsError m.
Proof.
  unfold validateSearchQuery. intros H.
  repeat case_match; simplify_eq; eauto.
Qed.

Lemma validatePagination_throws a b e :
  validatePagination a b = Throw e -> exists m, e = JsError m.
Proof.
  unfold validatePagination. intros H.
  repeat case_match; simplify_eq; eauto.
Qed.

Lemma castString_throws (L : Libs) path v e :
  castString L path v = Throw e -> e = CastError.
Proof. unfold castString. intros H. repeat case_match; by simplify_eq. Qed.

Lemma castFilter_throws (L : Libs) v e :
  castFilter L v = Throw e -> e = CastError.
Proof. unfold castFilter. intros H. repeat case_match; by simplify_eq. Qed.

Lemma listPostsHandler_status (L : Libs) st req :
  match listPostsHandler L st req with
  | Ok res => statusCode res = 200
  | Throw e => e = CastError \/ exists m, e = JsError m
  end.
Proof.
  unfold listPostsHandler, bind.
  destruct (if truthy (queryParam "search" (query req)) then _ else _)
    as [searchF|e] eqn:Hs.
  2: { right. destruct (truthy _); [|done].
       destruct (validateSearchQuery _) eqn:Hv; [done|].
       injection Hs as <-. by eapply validateSearchQuery_throws. }
  destruct (validatePagination _ _) eqn:Hp;
    [|right; by eapply validatePagination_throws].
  destruct (castString L _ _) eqn:Hst;
    [|left; by eapply castString_throws].
  destruct (castFilter L _) eqn:Hcat; [done|].
  left. by eapply castFilter_throws.
Qed.

(** C1.  [GET /api/posts] never answers 403: the route has no
    authentication middleware and its handler no check of the caller.  A
    request with [status=draft], whatever its [Authorization] header, is
    answered 200 with the posts whose status is draft; so is the request
    without header on the sample store, which lists the draft post. *)
Theorem listPosts_draft_unauthenticated :
  (forall (L : Libs) (st : Store) (req : request),
      statusCode (fst (listPostsRoute L st req)) <> 403)
  /\ (forall (L : Libs) (st : Store) (header : option string) (id : string)
             (b : jsval),
        listPostsRoute L st
          {| authorization := header; paramId := id;
             query := [("status", JStr "draft")]; reqBody := b |}
        = (ok (BPosts
                 (skipLimit 0 10
                    (findSorted (listFilter L (String.eqb "draft") None None)
                       (posts st)))
                 {| infoPage := 1; infoLimit := 10;
                    infoTotal :=
                      countDocuments (listFilter L (String.eqb "draft") None None)
                        (posts st);
                    infoPages :=
                      ceilDiv
                        (countDocuments
                           (listFilter L (String.eqb "draft") None None)
                           (posts st)) 10 |}),
           st))
  /\ listPostsRoute refLibs sampleStore
       (sampleRequest None "" [("status", "draft")])
     = (ok (BPosts [(draftId, mkPost "Draft Post" aliceId Draft 5 [] 1000)]
              {| infoPage := 1; infoLimit := 10; infoTotal := 1;
                 infoPages := 1 |}),
        sampleStore).
Proof.
  split; [|split; [reflexivity|vm_compute; reflexivity]].
  intros L st req. unfold listPostsRoute.
  destruct (checkValidationResult _) as [res|] eqn:Hc.
  - cbn [fst]. rewrite (checkValidationResult_400 _ _ Hc). lia.
  - pose proof (listPostsHandler_status L st req) as H.
    unfold asyncHandler. destruct (listPostsHandler L st req) as [res|e].
    + cbn [fst]. rewrite H. lia.
    + cbn [fst]. destruct H as [-> | [m ->]]; cbn; lia.
Qed.

Lemma updatePost_not_author (L : Libs) st userId id reqBody oid post :
  castObjectId L (JStr id) = Some oid ->
  posts st !! oid = Some post ->
  author post <> userId ->
  updatePost L st userId id reqBody
  = ({| statusCode := 403; json := BError "You can only edit your own posts" |},
     st).
Proof.
  intros Hcast Hpost Hne. unfold updatePost, updatePostHandler.
  rewrite (findById_found L _ _ _ _ Hcast Hpost).
  by replace (String.eqb (author post) userId) with false
    by (symmetry; by apply String.eqb_neq).
Qed.

Lemma updatePostRoute_not_author (L : Libs) st req userId user oid post :
  auth L st req = Next userId user ->
  castObjectId L (JStr (paramId req)) = Some oid ->
  posts st !! oid = Some post ->
  author post <> userId ->
  snd (updatePostRoute L st req) = st
  /\ (snd (runUpdateChains L (reqBody req)) = [] ->
      updatePostRoute L st req
      = ({| statusCode := 403;
            json := BError "You can only edit your own posts" |}, st)).
Proof.
  intros Hauth Hcast Hpost Hne. unfold updatePostRoute. rewrite Hauth.
  destruct (runUpdateChains L (reqBody req)) as [trimmed errors].
  cbn [snd]. split.
  - destruct (checkValidationResult errors); [done|].
    by rewrite (updatePost_not_author L st userId _ trimmed oid post).
  - intros ->. cbn [checkValidationResult].
    by rewrite (updatePost_not_author L st userId _ trimmed oid post).
Qed.

Lemma deletePostRoute_not_author (L : Libs) st req userId user oid post :
  auth L st req = Next userId user ->
  castObjectId L (JStr (paramId req)) = Some oid ->
  posts st !! oid = Some post ->
  author post <> userId ->
  deletePostRoute L st req
  = ({| statusCode := 403;
        json := BError "You can only delete your own posts" |}, st).
Proof.
  intros Hauth Hcast Hpost Hne.
  unfold deletePostRoute, deletePostHandler. rewrite Hauth.
  rewrite (findById_found L _ _ _ _ Hcast Hpost).
  by replace (String.eqb (author post) userId) with false
    by (symmetry; by apply String.eqb_neq).
Qed.

(** C2.  The handlers of [PUT /posts/:id] and [DELETE /posts/:id] compare
    the author of the post with the caller and nothing else: an
    authenticated admin who is not the author is answered 403, and the post
    stays as it is. *)
Theorem admin_rejected_on_foreign_post (L : Libs) (st : Store) (req : request)
  (callerId : string) (caller : User) (oid : string) (post : Post) :
  auth L st req = Next callerId caller ->
  role caller = RoleAdmin ->
  castObjectId L (JStr (paramId req)) = Some oid ->
  posts st !! oid = Some post ->
  author post <> callerId ->
  deletePostRoute L st req
  = ({| statusCode := 403;
        json := BError "You can only delete your own posts" |}, st)
  /\ (forall reqBody,
        updatePost L st callerId (paramId req) reqBody
        = ({| statusCode := 403;
              json := BError "You can only edit your own posts" |}, st))
  /\ (snd (runUpdateChains L (reqBody req)) = [] ->
      updatePostRoute L st req
      = ({| statusCode := 403;
            json := BError "You can only edit your own posts" |}, st)).
Proof.
  intros Hauth _ Hcast Hpost Hne. split; [|split].
  - by eapply deletePostRoute_not_author.
  - intros reqBody. by eapply updatePost_not_author.
  - by eapply updatePostRoute_not_author.
Qed.

Lemma admin_rejected_on_foreign_post_witness :
  deletePostRoute refLibs sampleStore (sampleRequest (Some adminId) postId [])
  = ({| statusCode := 403;
        json := BError "You can only delete your own posts" |}, sampleStore)
  /\ updatePostRoute refLibs sampleStore (sampleRequest (Some adminId) postId [])
     = ({| statusCode := 403;
           json := BError "You can only edit your own posts" |}, sampleStore).
Proof.
  destruct (admin_rejected_on_foreign_post refLibs sampleStore
              (sampleRequest (Some adminId) postId [])
              adminId (mkUser "admin" RoleAdmin) postId
              (mkPost "Test Post" aliceId Published 10 [] 2000))
    as (Hdel & _ & Hput).
  - vm_compute. reflexivity.
  - reflexivity.
  - vm_compute. reflexivity.
  - vm_compute. reflexivity.
  - vm_compute. discriminate.
  - split; [exact Hdel|]. apply Hput. reflexivity.
Defined.

Lemma updatePostRoute_invalid (L : Libs) st req userId user :
  auth L st req = Next userId user ->
  snd (runUpdateChains L (reqBody req)) <> [] ->
  updatePostRoute L st req
  = ({| statusCode := 400;
        json := BValidationFailed (snd (runUpdateChains L (reqBody req))) |},
     st).
Proof.
  intros Hauth Herr. unfold updatePostRoute. rewrite Hauth.
  destruct (runUpdateChains L (reqBody req)) as [trimmed errors].
  cbn [snd] in *. by destruct errors.
Qed.

(** C4, as stated, fails for a body that does not pass the validation
    chains of the route: they run before the handler, and the caller who is
    neither author nor admin is answered 400, not 403.  Here bob sends a
    title of two characters for the post of alice. *)
Lemma update_by_stranger_invalid_body :
  let req := {| authorization := Some ("Bearer " +:+ tokenOf bobId);
                paramId := postId; query := [];
                reqBody := JObj [("title", JStr "ab")] |} in
  auth refLibs sampleStore req = Next bobId (mkUser "bob" RoleUser)
  /\ role (mkUser "bob" RoleUser) = RoleUser
  /\ posts sampleStore !! postId
     = Some (mkPost "Test Post" aliceId Published 10 [] 2000)
  /\ aliceId <> bobId
  /\ updatePostRoute refLibs sampleStore req
     = ({| statusCode := 400;
           json := BValidationFailed
                     ["Title must be between 3 and 200 characters"] |},
        sampleStore)
  /\ statusCode (fst (updatePostRoute refLibs sampleStore req)) <> 403.
Proof.
  cbv zeta. split; [vm_compute; reflexivity|]. split; [reflexivity|].
  split; [vm_compute; reflexivity|]. split; [vm_compute; discriminate|].
  split; [vm_compute; reflexivity|]. vm_compute. discriminate.
Qed.

(** C4, amended.  A [PUT /posts/:id] by an authenticated caller who is
    neither the author of the post nor an admin leaves the store as it was:
    the post is unchanged.  The handler answers 403 whatever the body; the
    route answers 403 when the body passes its validation chains, and 400
    with the messages of the failed checks otherwise. *)
Theorem update_by_stranger_rejected (L : Libs) (st : Store) (req : request)
  (callerId : string) (caller : User) (oid : string) (post : Post) :
  auth L st req = Next callerId caller ->
  role caller <> RoleAdmin ->
  castObjectId L (JStr (paramId req)) = Some oid ->
  posts st !! oid = Some post ->
  author post <> callerId ->
  (forall reqBody,
      updatePost L st callerId (paramId req) reqBody
      = ({| statusCode := 403;
            json := BError "You can only edit your own posts" |}, st))
  /\ updatePostRoute L st req
     = (match snd (runUpdateChains L (reqBody req)) with
        | [] => {| statusCode := 403;
                   json := BError "You can only edit your own posts" |}
        | errors => {| statusCode := 400; json := BValidationFailed errors |}
        end, st)
  /\ posts (snd (updatePostRoute L st req)) !! oid = Some post.
Proof.
  intros Hauth _ Hcast Hpost Hne.
  destruct (updatePostRoute_not_author L st req callerId caller oid post)
    as [Hst Hres]; try done.
  split; [|split].
  - intros reqBody. by eapply updatePost_not_author.
  - destruct (snd (runUpdateChains L (reqBody req))) as [|m errors] eqn:Herr.
    + by apply Hres.
    + rewrite (updatePostRoute_invalid L st req callerId caller Hauth);
        rewrite Herr; done.
  - by rewrite Hst.
Qed.

Lemma update_by_stranger_rejected_witness :
  updatePostRoute refLibs sampleStore (sampleRequest (Some bobId) postId [])
  = ({| statusCode := 403;
        json := BError "You can only edit your own posts" |}, sampleStore)
  /\ posts (snd (updatePostRoute refLibs sampleStore
                   (sampleRequest (Some bobId) postId []))) !! postId
     = Some (mkPost "Test Post" aliceId Published 10 [] 2000).
Proof.
  destruct (update_by_stranger_rejected refLibs sampleStore
              (sampleRequest (Some bobId) postId [])
              bobId (mkUser "bob" RoleUser) postId
              (mkPost "Test Post" aliceId Published 10 [] 2000))
    as (_ & Hput & Hpost).
  - vm_compute. reflexivity.
  - discriminate.
  - vm_compute. reflexivity.
  - vm_compute. reflexivity.
  - vm_compute. discriminate.
  - split; [exact Hput|exact Hpost].
Defined.

Lemma auth_same_users (L : Libs) st st' req :
  users st = users st' -> auth L st req = auth L st' req.
Proof. intros Hu. unfold auth. by rewrite Hu. Qed.

(** Two [POST /posts/:id/like] in a row by the same authenticated user:
    both succeed, and the stored post has its original like set. *)
Lemma likePostRoute_twice (L : Libs) st req userId user oid p :
  auth L st req = Next userId user ->
  castObjectId L (JStr (paramId req)) = Some oid ->
  posts st !! oid = Some p ->
  (occurrences userId (likes p) <= 1)%nat ->
  let '(res1, st1) := likePostRoute L st req in
  let '(res2, st2) := likePostRoute L st1 req in
  statusCode res1 = 200 /\ statusCode res2 = 200
  /\ exists p2, posts st2 !! oid = Some p2
       /\ (list_to_set (likes p2) : gset string) = list_to_set (likes p)
       /\ json res2 = BLike "Post like updated" (likeCount p).
Proof.
  intros Hauth Hcast Hp Hnd. unfold likePostRoute, likePostHandler.
  rewrite Hauth, (findById_found L _ _ _ _ Hcast Hp).
  cbn [toggleLike asyncHandler].
  set (p1 := setLikes p (toggleLikes userId (likes p))).
  rewrite <- (auth_same_users L st (savePost oid p1 st) req eq_refl), Hauth.
  assert (Hp1 : posts (savePost oid p1 st) !! oid = Some p1)
    by apply lookup_insert_eq.
  rewrite (findById_found L _ _ _ _ Hcast Hp1). cbn [toggleLike asyncHandler].
  split; [done|]. split; [done|].
  pose proof (toggleLikes_twice_perm userId _ Hnd) as Hperm.
  eexists. split; [apply lookup_insert_eq|]. cbn [setLikes likes p1]. split.
  - apply set_eq. intros x. rewrite !elem_of_list_to_set. by rewrite Hperm.
  - cbn [ok json]. f_equal. unfold likeCount. cbn [setLikes likes].
    by rewrite Hperm.
Qed.

Lemma roundNumber_exact z : Z.abs z <= 2 ^ 53 -> roundNumber z = z.
Proof.
  intros Hz. unfold roundNumber.
  destruct (decide (Z.abs z = 2 ^ 53)) as [Heq|Hne].
  - assert (Hcases : z = 2 ^ 53 \/ z = - 2 ^ 53) by lia.
    destruct Hcases as [-> | ->]; reflexivity.
  - replace (Z.log2 (Z.abs z) - 52 <=? 0) with true; [done|].
    symmetry. apply Z.leb_le.
    destruct (decide (Z.abs z = 0)) as [->|Hpos]; [cbn; lia|].
    enough (Z.log2 (Z.abs z) < 53) by lia.
    apply Z.log2_lt_pow2; lia.
Qed.

Lemma getPostRoute_found (L : Libs) st req oid p :
  checkValidationResult (getPostChecks L req) = None ->
  castObjectId L (JStr (paramId req)) = Some oid ->
  posts st !! oid = Some p ->
  getPostRoute L st req
  = (ok (BPost oid (setViews p (roundNumber (views p + 1)))),
     savePost oid (setViews p (roundNumber (views p + 1))) st).
Proof.
  intros Hc Hcast Hp. unfold getPostRoute, getPostHandler. rewrite Hc.
  by rewrite (findById_found L _ _ _ _ Hcast Hp).
Qed.

(** C8, as stated, fails for a post whose view count is 2^53: the sum
    2^53 + 1 is no Number and [this.views += 1] gives 2^53 again, so a
    [GET /api/posts/:id] that succeeds leaves the stored count as it was. *)
Lemma getPost_views_unchanged_at_2_53 :
  let p := mkPost "Test Post" aliceId Published (2 ^ 53) [] 2000 in
  let st := savePost postId p sampleStore in
  let '(res, st') :=
    getPostRoute refLibs st (sampleRequest None postId [("id", postId)]) in
  posts st !! postId = Some p
  /\ status p = Published
  /\ res = ok (BPost postId p)
  /\ posts st' !! postId = Some p
  /\ views p + 1 <> views p.
Proof.
  cbv zeta. split; [vm_compute; reflexivity|]. split; [reflexivity|].
  split; [vm_compute; reflexivity|]. split; [vm_compute; reflexivity|].
  vm_compute. discriminate.
Qed.

(** C8, amended.  A [GET /api/posts/:id] that succeeds on a stored post
    whose view count is an integer [v] with [-2^53 <= v < 2^53] saves the
    post with its view count increased by exactly 1 and answers with it; the
    same request once more succeeds again, and the stored count is then the
    original one plus 2, as long as [v + 1 < 2^53]. *)
Theorem getPost_increments_views (L : Libs) (st : Store) (req : request)
  (oid : string) (p : Post) :
  castObjectId L (JStr (paramId req)) = Some oid ->
  posts st !! oid = Some p ->
  statusCode (fst (getPostRoute L st req)) = 200 ->
  - 2 ^ 53 <= views p < 2 ^ 53 ->
  let '(res1, st1) := getPostRoute L st req in
  let '(res2, st2) := getPostRoute L st1 req in
  json res1 = BPost oid (setViews p (views p + 1))
  /\ posts st1 !! oid = Some (setViews p (views p + 1))
  /\ statusCode res2 = 200
  /\ (views p + 1 < 2 ^ 53 ->
      posts st2 !! oid = Some (setViews p (views p + 2)))
  /\ (forall k, k <> oid -> posts st2 !! k = posts st !! k).
Proof.
  intros Hcast Hp Hok Hv.
  destruct (checkValidationResult (getPostChecks L req)) as [res|] eqn:Hc.
  { unfold getPostRoute in Hok. rewrite Hc in Hok. cbn [fst] in Hok.
    rewrite (checkValidationResult_400 _ _ Hc) in Hok. lia. }
  rewrite (getPostRoute_found L st req oid p Hc Hcast Hp).
  rewrite (roundNumber_exact (views p + 1)) by lia.
  set (p1 := setViews p (views p + 1)).
  assert (Hp1 : posts (savePost oid p1 st) !! oid = Some p1)
    by apply lookup_insert_eq.
  rewrite (getPostRoute_found L _ req oid p1 Hc Hcast Hp1).
  split; [done|]. split; [done|]. split; [done|]. split.
  - intros Hv2. cbn [savePost withPosts posts]. rewrite lookup_insert_eq.
    f_equal. unfold p1, setViews. cbn [views title content author category
      slug status tags featured likes comments createdAt].
    rewrite roundNumber_exact by lia. f_equal. lia.
  - intros k Hk. cbn [savePost withPosts posts].
    by rewrite !lookup_insert_ne.
Qed.

Lemma getPost_increments_views_witness :
  let req := sampleRequest None postId [("id", postId)] in
  let '(res1, st1) := getPostRoute refLibs sampleStore req in
  let '(res2, st2) := getPostRoute refLibs st1 req in
  posts st1 !! postId = Some (mkPost "Test Post" aliceId Published 11 [] 2000)
  /\ posts st2 !! postId = Some (mkPost "Test Post" aliceId Published 12 [] 2000).
Proof.
  pose proof (getPost_increments_views refLibs sampleStore
                (sampleRequest None postId [("id", postId)]) postId
                (mkPost "Test Post" aliceId Published 10 [] 2000)
                ltac:(vm_compute; reflexivity) ltac:(vm_compute; reflexivity)
                ltac:(vm_compute; reflexivity)
                ltac:(cbn [views mkPost]; lia)) as H.
  cbv zeta.
  destruct (getPostRoute refLibs sampleStore _) as [res1 st1].
  destruct (getPostRoute refLibs st1 _) as [res2 st2].
  destruct H as (_ & H1 & _ & H2 & _). split; [exact H1|].
  apply H2. vm_compute. reflexivity.
Defined.

(** ** The routes of users *)

Lemma filter_none {A} (f : A -> bool) (l : list A) :
  (forall x, x ∈ l -> f x = false) -> List.filter f l = [].
Proof.
  induction l as [|x l IH]; intros H; cbn [List.filter]; [done|].
  rewrite (H x) by left. apply IH. intros y Hy. apply H. by right.
Qed.

Lemma deletePostsOf_lookup authorId (coll : gmap string Post) k p :
  deletePostsOf authorId coll !! k = Some p
  <-> coll !! k = Some p /\ author p <> authorId.
Proof. unfold deletePostsOf. by rewrite map_lookup_filter_Some. Qed.

Lemma authorFilter_none authorId (coll : gmap string Post) :
  List.filter (fun d => authorFilter authorId (snd d))
    (map_to_list (deletePostsOf authorId coll)) = [].
Proof.
  apply filter_none. intros [k p] Hin.
  apply elem_of_map_to_list, deletePostsOf_lookup in Hin as [_ Hne].
  unfold authorFilter. cbn [snd].
  by replace (String.eqb (author p) authorId) with false
    by (symmetry; by apply String.eqb_neq).
Qed.

Lemma authorPosts_none (L : Libs) st req authorId :
  castObjectId L (JStr (paramId req)) = Some authorId ->
  (forall k p, posts st !! k = Some p -> author p <> authorId) ->
  forall found info,
    json (fst (authorPostsRoute L st req)) = BPosts found info ->
    found = [] /\ infoTotal info = 0.
Proof.
  intros Hcast Hnone found info. unfold authorPostsRoute.
  destruct (checkValidationResult _) as [res|] eqn:Hc.
  { apply checkValidationResult_Some in Hc as ->. cbn [fst json]. done. }
  unfold authorPostsHandler, bind, asyncHandler.
  destruct (validatePagination _ _) as [pg|e] eqn:Hpg.
  - rewrite Hcast. cbn [fst json ok]. intros [= <- <-]. cbn [infoTotal].
    assert (Hnil : List.filter (fun d => authorFilter authorId (snd d))
                     (map_to_list (posts st)) = []).
    { apply filter_none. intros [k p] Hin.
      apply elem_of_map_to_list, Hnone in Hin.
      unfold authorFilter. cbn [snd].
      by replace (String.eqb (author p) authorId) with false
        by (symmetry; by apply String.eqb_neq). }
    unfold findSorted, countDocuments, skipLimit. rewrite Hnil.
    split; [|done]. cbn. by rewrite drop_nil, take_nil.
  - cbn [fst]. by destruct e.
Qed.

(** C6.  When an admin deletes another existing user with
    [DELETE /users/:id], the answer is 200, the user is gone, no post of that
    author is left in the store (the other posts stay), and a following
    [GET /posts/author/:id] finds no post: with the default pagination it
    answers an empty list and a total of 0. *)
Theorem deleteUser_cascades (L : Libs) (st : Store) (req : request)
  (adminId' : string) (admin : User) (uid : string) (target : User) :
  adminAuth L st req = Next adminId' admin ->
  paramId req <> adminId' ->
  castObjectId L (JStr (paramId req)) = Some uid ->
  users st !! uid = Some target ->
  let '(res, st') := deleteUserRoute L st req in
  res = ok (BMessage "User deleted successfully")
  /\ users st' !! uid = None
  /\ (forall k p, posts st' !! k = Some p -> author p <> uid)
  /\ (forall k p, posts st !! k = Some p -> author p <> uid ->
                  posts st' !! k = Some p)
  /\ (forall req2 found info,
        paramId req2 = paramId req ->
        json (fst (authorPostsRoute L st' req2)) = BPosts found info ->
        found = [] /\ infoTotal info = 0)
  /\ (forall req2,
        paramId req2 = paramId req -> query req2 = [] ->
        authorPostsRoute L st' req2
        = (ok (BPosts [] {| infoPage := 1; infoLimit := 10; infoTotal := 0;
                            infoPages := 0 |}), st')).
Proof.
  intros Hauth Hself Hcast Htarget.
  unfold deleteUserRoute, deleteUserHandler. rewrite Hauth.
  replace (String.eqb adminId' (paramId req)) with false
    by (symmetry; apply String.eqb_neq; congruence).
  rewrite (findById_found L _ _ _ _ Hcast Htarget).
  cbn [asyncHandler withUsers withPosts users posts].
  assert (Hgone : forall k p,
             deletePostsOf uid (posts st) !! k = Some p -> author p <> uid).
  { intros k p Hk. by apply deletePostsOf_lookup in Hk as [_ ?]. }
  split; [done|]. split; [apply lookup_delete_eq|]. split; [exact Hgone|].
  split; [|split].
  - intros k p Hk Hne. by apply deletePostsOf_lookup.
  - intros req2 found info Hid. apply (authorPosts_none L _ req2 uid).
    + by rewrite Hid.
    + exact Hgone.
  - intros req2 Hid Hq. unfold authorPostsRoute, pageChecks.
    rewrite Hq. cbn [queryParam chain app checkValidationResult].
    unfold authorPostsHandler. rewrite Hq. cbn [queryParam].
    rewrite Hid, Hcast.
    change (validatePagination JUndefined JUndefined)
      with (Ok {| page := 1; limit := 10 |}).
    cbn [bind asyncHandler page limit withPosts posts].
    unfold findSorted, countDocuments, skipLimit.
    change (posts (withUsers (withPosts st (deletePostsOf uid (posts st)))
                     (delete uid (users st))))
      with (deletePostsOf uid (posts st)).
    rewrite authorFilter_none. reflexivity.
Qed.

Lemma deleteUser_cascades_witness :
  let '(res, st') :=
    deleteUserRoute refLibs sampleStore (sampleRequest (Some adminId) aliceId []) in
  statusCode res = 200
  /\ users st' !! aliceId = None
  /\ authorPostsRoute refLibs st' (sampleRequest None aliceId [])
     = (ok (BPosts [] {| infoPage := 1; infoLimit := 10; infoTotal := 0;
                         infoPages := 0 |}), st').
Proof.
  pose proof (deleteUser_cascades refLibs sampleStore
                (sampleRequest (Some adminId) aliceId [])
                adminId (mkUser "admin" RoleAdmin) aliceId
                (mkUser "alice" RoleUser)
                ltac:(vm_compute; reflexivity) ltac:(vm_compute; discriminate)
                ltac:(vm_compute; reflexivity) ltac:(vm_compute; reflexivity))
    as H.
  destruct (deleteUserRoute refLibs sampleStore _) as [res st'].
  destruct H as (-> & Huser & _ & _ & _ & Hget).
  split; [reflexivity|]. split; [exact Huser|].
  apply Hget; reflexivity.
Defined.

(** * Further properties *)

(** ** [validatePagination] and [validateSearchQuery] *)

(** X1.  Whatever the arguments, a result of [validatePagination] has a
    page of at least 1 and a limit between 1 and 100, so the number of
    documents to skip, [(page - 1) * limit], is never negative. *)
Theorem validatePagination_bounds (a b : jsval) (pg : pagination) :
  validatePagination a b = Ok pg ->
  1 <= page pg /\ 1 <= limit pg <= 100 /\ 0 <= (page pg - 1) * limit pg.
Proof.
  unfold validatePagination.
  destruct (orDefault (parseInt a) 1 <? 1) eqn:Hp; [done|].
  destruct (orDefault (parseInt b) 10 <? 1) eqn:Hl1; [done|].
  destruct (orDefault (parseInt b) 10 >? 100) eqn:Hl2; [done|].
  cbn [orb]. intros [= <-]. cbn [page limit].
  apply Z.ltb_ge in Hp, Hl1. rewrite Z.gtb_ltb in Hl2. apply Z.ltb_ge in Hl2.
  nia.
Qed.

Lemma validatePagination_bounds_witness :
  1 <= 2 /\ 1 <= 20 <= 100 /\ 0 <= (2 - 1) * 20.
Proof.
  exact (validatePagination_bounds (JStr "2") (JStr "20")
           {| page := 2; limit := 20 |} eq_refl).
Defined.

Lemma parseInt_decimal n : 0 <= n -> parseInt (JStr (decimal n)) = Some n.
Proof.
  intros Hn. unfold parseInt. cbn [toString].
  destruct (decimal_shape n Hn) as (c & s & Heq & Hc & Hs).
  rewrite Heq, (parseIntString_digits c s Hc Hs), <- Heq.
  by rewrite parseDigits_decimal.
Qed.

(** X2.  Query parameters are strings: for the decimal text of a page
    between 1 and 2^53 and of a limit between 1 and 100,
    [validatePagination] returns these two numbers.  (Beyond 2^53 the
    integer read from the digits need not be a Number.) *)
Theorem validatePagination_of_strings (p l : Z) :
  1 <= p <= 2 ^ 53 -> 1 <= l <= 100 ->
  validatePagination (JStr (decimal p)) (JStr (decimal l))
  = Ok {| page := p; limit := l |}
  /\ roundNumber p = p.
Proof.
  intros Hp Hl. split; [|apply roundNumber_exact; lia].
  unfold validatePagination.
  rewrite (parseInt_decimal p), (parseInt_decimal l) by lia.
  rewrite !orDefault_nonzero by lia.
  replace (p <? 1) with false by (symmetry; apply Z.ltb_ge; lia).
  replace (l <? 1) with false by (symmetry; apply Z.ltb_ge; lia).
  replace (l >? 100) with false; [done|].
  symmetry. rewrite Z.gtb_ltb. apply Z.ltb_ge. lia.
Qed.

Lemma validatePagination_of_strings_witness :
  validatePagination (JStr "9007199254740992") (JStr "100")
  = Ok {| page := 2 ^ 53; limit := 100 |}.
Proof. apply (validatePagination_of_strings (2 ^ 53) 100); lia. Defined.

Lemma trimStart_noLeadingSpace s : noLeadingSpace (trimStart s).
Proof.
  induction s as [|c s IH]; cbn [trimStart]; [done|].
  destruct (isWhiteSpace c) eqn:Hc; [exact IH|exact Hc].
Qed.

Lemma trimStart_id s : noLeadingSpace s -> trimStart s = s.
Proof. destruct s as [|c s]; cbn; [done|]. by intros ->. Qed.

Lemma trimEnd_noLeadingSpace s : noLeadingSpace s -> noLeadingSpace (trimEnd s).
Proof.
  destruct s as [|c s]; cbn [trimEnd noLeadingSpace]; [done|]. intros Hc.
  destruct (trimEnd s); rewrite ?Hc; exact Hc.
Qed.

Lemma trimEnd_idem s : trimEnd (trimEnd s) = trimEnd s.
Proof.
  induction s as [|c s IH]; cbn [trimEnd]; [done|].
  destruct (trimEnd s) as [|d t] eqn:Ht.
  - destruct (isWhiteSpace c) eqn:Hc; cbn [trimEnd]; [done|]. by rewrite Hc.
  - cbn [trimEnd]. cbn [trimEnd] in IH. by rewrite IH.
Qed.

Lemma trim_idem s : trim (trim s) = trim s.
Proof.
  unfold trim.
  rewrite (trimStart_id (trimEnd (trimStart s))).
  - apply trimEnd_idem.
  - apply trimEnd_noLeadingSpace, trimStart_noLeadingSpace.
Qed.

(** X3.  A search text accepted by [validateSearchQuery] comes back
    trimmed, with 2 to 100 characters, and is accepted unchanged when it is
    validated again. *)
Theorem validateSearchQuery_result (q : jsval) (r : string) :
  validateSearchQuery q = Ok r ->
  (2 <= String.length r <= 100)%nat
  /\ trim r = r
  /\ validateSearchQuery (JStr r) = Ok r.
Proof.
  unfold validateSearchQuery.
  destruct q as [| | | |s| |]; try done. destruct s as [|c s]; [done|].
  destruct (Z.of_nat (String.length (trim (String c s))) <? 2) eqn:H2; [done|].
  destruct (Z.of_nat (String.length (trim (String c s))) >? 100) eqn:H100;
    [done|].
  intros [= <-]. set (r := trim (String c s)) in *.
  apply Z.ltb_ge in H2. rewrite Z.gtb_ltb in H100. apply Z.ltb_ge in H100.
  assert (Hidem : trim r = r) by apply trim_idem.
  split; [lia|]. split; [done|].
  destruct r as [|d r'] eqn:Hr; [cbn in H2; lia|].
  rewrite Hidem.
  replace (Z.of_nat (String.length (String d r')) <? 2) with false
    by (symmetry; apply Z.ltb_ge; lia).
  replace (Z.of_nat (String.length (String d r')) >? 100) with false; [done|].
  symmetry. rewrite Z.gtb_ltb. apply Z.ltb_ge. lia.
Qed.

Lemma validateSearchQuery_result_witness :
  (2 <= String.length "test post" <= 100)%nat
  /\ trim "test post" = "test post"
  /\ validateSearchQuery (JStr "test post") = Ok "test post".
Proof.
  exact (validateSearchQuery_result (JStr "  test post ") "test post" eq_refl).
Defined.

(** ** [sanitizeInput] on strings *)

Lemma jsval_induction (P : jsval -> Prop) :
  P JUndefined -> P JNull -> (forall b, P (JBool b)) -> (forall z, P (JNum z)) ->
  (forall s, P (JStr s)) ->
  (forall elems, Forall P elems -> P (JArr elems)) ->
  (forall props, Forall (fun kv => P (snd kv)) props -> P (JObj props)) ->
  forall v, P v.
Proof.
  intros Hu Hn Hb Hz Hs Ha Ho. fix IH 1. intros [| |b|z|s|elems|props].
  - exact Hu.
  - exact Hn.
  - apply Hb.
  - apply Hz.
  - apply Hs.
  - apply Ha. induction elems as [|e elems IHe]; constructor; [apply IH|exact IHe].
  - apply Ho. induction props as [|[k e] props IHp]; constructor;
      [apply IH|exact IHp].
Qed.

Lemma allChars_filterChars ok s : allChars ok (filterChars ok s) = true.
Proof.
  induction s as [|c s IH]; cbn [filterChars]; [done|].
  destruct (ok c) eqn:Hc; [|exact IH]. cbn [allChars]. by rewrite Hc, IH.
Qed.

Lemma allChars_removeMatches ok m s : forall k,
  allChars ok s = true -> allChars ok (removeMatches m k s) = true.
Proof.
  induction s as [|c s IH]; intros k; cbn [removeMatches allChars]; [done|].
  intros [Hc Hs]%andb_prop. destruct k as [|k]; [|by apply IH].
  destruct (m (String c s)) as [[|n]|]; try by apply IH.
  - cbn [allChars]. by rewrite Hc, IH.
  - cbn [allChars]. by rewrite Hc, IH.
Qed.

Lemma toLower_angle c : Ascii.eqb "<" (toLower c) = Ascii.eqb "<" c.
Proof.
  destruct c as [b0 b1 b2 b3 b4 b5 b6 b7].
  destruct b0, b1, b2, b3, b4, b5, b6, b7; reflexivity.
Qed.

Lemma removeMatches_script s :
  allChars (fun c => negb (isAngle c)) s = true ->
  removeMatches matchScript O s = s.
Proof.
  induction s as [|c s IH]; cbn [removeMatches allChars]; [done|].
  intros [Hc Hs]%andb_prop.
  assert (Hm : matchScript (String c s) = None).
  { unfold matchScript. cbn [startsWithCI]. rewrite toLower_angle.
    unfold isAngle in Hc. apply negb_true_iff, orb_false_elim in Hc as [Hlt _].
    rewrite Ascii.eqb_sym in Hlt. by rewrite Hlt. }
  rewrite Hm. by rewrite IH.
Qed.

Lemma sanitizeString_no_angle s :
  allChars (fun c => negb (isAngle c)) (sanitizeString s) = true.
Proof.
  unfold sanitizeString. do 3 apply allChars_removeMatches.
  apply allChars_filterChars.
Qed.

Lemma assignProps_keys (f : jsval -> jsval) props :
  List.map fst
    (assignProps
       (List.map (fun kv => match kv with
                            | (key, value) => (key, f value)
                            end) props))
  = List.filter (fun key => negb (String.eqb key "__proto__"))
      (List.map fst props).
Proof.
  unfold assignProps.
  induction props as [|[k v] props IH]; cbn [List.map List.filter fst]; [done|].
  destruct (negb (String.eqb k "__proto__")); cbn [List.map fst]; by rewrite IH.
Qed.

(** X4.  No string value inside a sanitized value, element of an array or
    value of a property at any depth, holds [<] or [>].  Property names are
    not sanitized: a sanitized object has the names of the object it comes
    from, [__proto__] left out, written as they were, angle brackets
    included. *)
Theorem sanitizeInput_values_no_angle (data : jsval)
  (props : list (string * jsval)) :
  everyString (allChars (fun c => negb (isAngle c))) (sanitizeInput data) = true
  /\ (exists props',
        sanitizeInput (JObj props) = JObj props'
        /\ List.map fst props'
           = List.filter (fun key => negb (String.eqb key "__proto__"))
               (List.map fst props))
  /\ sanitizeInput (JObj [("<b>", JStr "<i>text")])
     = JObj [("<b>", JStr "itext")].
Proof.
  split; [|split; [|reflexivity]].
  2: { eexists. split; [reflexivity|]. apply assignProps_keys. }
  induction data as [| | | |s|elems IH|props0 IH] using jsval_induction;
    try reflexivity.
  - apply sanitizeString_no_angle.
  - rewrite sanitizeInput_array. cbn [everyString].
    generalize 0%nat. induction IH as [|e elems He _ IHl]; intros i; [done|].
    cbn [List.map indexed forallb snd]. by rewrite He, IHl.
  - cbn [sanitizeInput everyString]. unfold assignProps.
    induction IH as [|[k e] props0 He _ IHl]; [done|].
    cbn [List.map List.filter fst]. cbn [snd] in He.
    destruct (negb (String.eqb k "__proto__")); [|exact IHl].
    cbn [forallb snd]. by rewrite He, IHl.
Qed.

(** X5.  The last replacement of [sanitizeInput], the one of script
    elements, never finds anything: the angle brackets it looks for were
    removed by the first replacement. *)
Theorem sanitizeString_script_step (s : string) :
  sanitizeString s
  = removeMatches matchOnHandler O
      (removeMatches matchJavascript O
         (filterChars (fun c => negb (isAngle c)) (trim s))).
Proof.
  unfold sanitizeString. apply removeMatches_script.
  do 2 apply allChars_removeMatches. apply allChars_filterChars.
Qed.

Lemma filterChars_id ok s : allChars ok s = true -> filterChars ok s = s.
Proof.
  induction s as [|c s IH]; cbn [allChars filterChars]; [done|].
  intros [-> Hs]%andb_prop. by rewrite IH.
Qed.

Lemma startsWithCI_chars (ok okLower : ascii -> bool) :
  (forall c, ok c = true -> okLower (toLower c) = true) ->
  forall p s, startsWithCI p s = true -> allChars ok s = true ->
              allChars okLower p = true.
Proof.
  intros Hok. induction p as [|a p IH]; intros s; [done|].
  destruct s as [|c s]; cbn [startsWithCI allChars]; [done|].
  intros [Ha Hp]%andb_prop [Hc Hs]%andb_prop.
  apply Ascii.eqb_eq in Ha as ->. by rewrite (Hok c Hc), (IH s Hp Hs).
Qed.

Lemma toLower_colon c :
  negb (Ascii.eqb c ":") = true -> negb (Ascii.eqb (toLower c) ":") = true.
Proof.
  destruct c as [b0 b1 b2 b3 b4 b5 b6 b7].
  destruct b0, b1, b2, b3, b4, b5, b6, b7; vm_compute; done.
Qed.

Lemma removeMatches_javascript s :
  allChars (fun c => negb (Ascii.eqb c ":")) s = true ->
  removeMatches matchJavascript O s = s.
Proof.
  induction s as [|c s IH]; cbn [removeMatches]; [done|]. intros Hall.
  assert (Hm : matchJavascript (String c s) = None).
  { unfold matchJavascript.
    destruct (startsWithCI "javascript:" (String c s)) eqn:Hst; [|done].
    pose proof (startsWithCI_chars _ (fun c => negb (Ascii.eqb c ":"))
                  toLower_colon _ _ Hst Hall) as Hbad.
    discriminate Hbad. }
  rewrite Hm. cbn [allChars] in Hall. apply andb_prop in Hall as [_ Hs].
  by rewrite IH.
Qed.

Lemma startsWith_equals n : forall s,
  startsWith "=" (dropChars n s) = true ->
  allChars (fun c => negb (Ascii.eqb c "=")) s = false.
Proof.
  induction n as [|n IH]; intros [|c s].
  - done.
  - cbn [dropChars startsWith allChars]. intros [Hc _]%andb_prop.
    apply Ascii.eqb_eq in Hc as <-. done.
  - done.
  - cbn [dropChars allChars]. intros H. apply andb_false_intro2. by apply IH.
Qed.

Lemma removeMatches_onHandler s :
  allChars (fun c => negb (Ascii.eqb c "=")) s = true ->
  removeMatches matchOnHandler O s = s.
Proof.
  induction s as [|c s IH]; cbn [removeMatches]; [done|]. intros Hall.
  assert (Hm : matchOnHandler (String c s) = None).
  { unfold matchOnHandler.
    destruct (startsWithCI "on" (String c s)); [|done].
    destruct (wordRun (dropChars 2 (String c s))) as [|k]; [done|].
    destruct (startsWith "=" (dropChars (2 + S k) (String c s))) eqn:He; [|done].
    apply startsWith_equals in He. congruence. }
  rewrite Hm. cbn [allChars] in Hall. apply andb_prop in Hall as [_ Hs].
  by rewrite IH.
Qed.

Lemma allChars_weaken (ok ok' : ascii -> bool) s :
  (forall c, ok c = true -> ok' c = true) ->
  allChars ok s = true -> allChars ok' s = true.
Proof.
  intros Hw. induction s as [|c s IH]; cbn [allChars]; [done|].
  intros [Hc Hs]%andb_prop. by rewrite (Hw c Hc), IH.
Qed.

Lemma sanitizeString_plain s :
  trim s = s -> allChars plainChar s = true -> sanitizeString s = s.
Proof.
  intros Htrim Hplain. unfold sanitizeString. rewrite Htrim.
  assert (Hangle : allChars (fun c => negb (isAngle c)) s = true).
  { eapply allChars_weaken; [|exact Hplain]. unfold plainChar.
    by intros c [[? _]%andb_prop _]%andb_prop. }
  assert (Hcolon : allChars (fun c => negb (Ascii.eqb c ":")) s = true).
  { eapply allChars_weaken; [|exact Hplain]. unfold plainChar.
    by intros c [[_ ?]%andb_prop _]%andb_prop. }
  assert (Hequals : allChars (fun c => negb (Ascii.eqb c "=")) s = true).
  { eapply allChars_weaken; [|exact Hplain]. unfold plainChar.
    by intros c [_ ?]%andb_prop. }
  rewrite (filterChars_id _ s Hangle), (removeMatches_javascript s Hcolon).
  rewrite (removeMatches_onHandler s Hequals).
  by apply removeMatches_script.
Qed.

(** X6.  Ordinary text goes through [sanitizeInput] unchanged: a string
    without white space at its ends and without any of [<], [>], [:] and
    [=] is returned as it is. *)
Theorem sanitizeInput_plain_text (s : string) :
  trim s = s -> allChars plainChar s = true ->
  sanitizeInput (JStr s) = JStr s.
Proof.
  intros Htrim Hplain. cbn [sanitizeInput]. f_equal.
  by apply sanitizeString_plain.
Qed.

Lemma sanitizeInput_plain_text_witness :
  sanitizeInput (JStr "Hello wide world, on and on") = JStr "Hello wide world, on and on".
Proof. apply sanitizeInput_plain_text; reflexivity. Defined.

Lemma filterChars_length ok s :
  (String.length (filterChars ok s) <= String.length s)%nat.
Proof.
  induction s as [|c s IH]; cbn [filterChars String.length]; [lia|].
  destruct (ok c); cbn [String.length]; lia.
Qed.

Lemma filterChars_fixed ok s : filterChars ok s = s -> allChars ok s = true.
Proof.
  induction s as [|c s IH]; cbn [filterChars allChars]; [done|].
  destruct (ok c).
  - intros [= Hs]. by rewrite IH.
  - intros Heq. pose proof (filterChars_length ok s) as Hlen.
    rewrite Heq in Hlen. cbn [String.length] in Hlen. lia.
Qed.

Lemma trimEnd_id s :
  allChars (fun c => negb (isWhiteSpace c)) s = true -> trimEnd s = s.
Proof.
  induction s as [|c s IH]; cbn [trimEnd allChars]; [done|].
  intros [Hc Hs]%andb_prop. rewrite (IH Hs).
  apply negb_true_iff in Hc. rewrite Hc. by destruct s.
Qed.

Lemma trim_id s :
  allChars (fun c => negb (isWhiteSpace c)) s = true -> trim s = s.
Proof.
  intros Hs. unfold trim. rewrite trimStart_id; [by apply trimEnd_id|].
  destruct s as [|c s]; [done|]. cbn [allChars] in Hs.
  apply andb_prop in Hs as [Hc _]. by apply negb_true_iff in Hc.
Qed.

Lemma isHexDigit_plain c :
  isHexDigit c = true ->
  negb (isWhiteSpace c) = true /\ plainChar c = true.
Proof.
  destruct c as [b0 b1 b2 b3 b4 b5 b6 b7].
  destruct b0, b1, b2, b3, b4, b5, b6, b7; vm_compute; intros H;
    try discriminate H; done.
Qed.

(** X7.  An id accepted by [isValidObjectId] is left as it is by
    [sanitizeInput]: the ids in a request body reach the queries
    unchanged. *)
Theorem sanitizeInput_keeps_ids (s : string) :
  isValidObjectId (JStr s) = true -> sanitizeInput (JStr s) = JStr s.
Proof.
  unfold isValidObjectId, hex24. cbn [toString].
  intros [_ Hhex%String.eqb_eq]%andb_prop.
  apply filterChars_fixed in Hhex. cbn [sanitizeInput]. f_equal.
  apply sanitizeString_plain.
  - apply trim_id. eapply allChars_weaken; [|exact Hhex].
    intros c Hc. by apply isHexDigit_plain.
  - eapply allChars_weaken; [|exact Hhex].
    intros c Hc. by apply isHexDigit_plain.
Qed.

Lemma sanitizeInput_keeps_ids_witness :
  sanitizeInput (JStr "507f1f77bcf86cd799439011") = JStr "507f1f77bcf86cd799439011".
Proof. apply sanitizeInput_keeps_ids. reflexivity. Defined.

(** ** [isValidEmail] *)

Lemma allChars_app ok a b :
  allChars ok (a +:+ b) = allChars ok a && allChars ok b.
Proof.
  induction a as [|c a IH]; simpl; [done|].
  by rewrite IH, andb_assoc.
Qed.

Lemma splitFirst_Some c s l r :
  splitFirst c s = Some (l, r) ->
  s = l +:+ String c r /\ allChars (fun a => negb (Ascii.eqb a c)) l = true.
Proof.
  revert l. induction s as [|a s IH]; intros l; cbn [splitFirst]; [done|].
  destruct (Ascii.eqb a c) eqn:Ha.
  - apply Ascii.eqb_eq in Ha as ->. by intros [= <- <-].
  - destruct (splitFirst c s) as [[l' r']|]; [|done]. intros [= <- <-].
    destruct (IH l' eq_refl) as [-> Hl]. simpl.
    by rewrite Ha, Hl.
Qed.

Lemma splitFirst_app c l r :
  allChars (fun a => negb (Ascii.eqb a c)) l = true ->
  splitFirst c (l +:+ String c r) = Some (l, r).
Proof.
  induction l as [|a l IH]; simpl.
  - by rewrite Ascii.eqb_refl.
  - intros [Ha Hl]%andb_prop. apply negb_true_iff in Ha. by rewrite Ha, IH.
Qed.

Lemma dotBeforeEnd_split s :
  dotBeforeEnd s = true ->
  exists b c, s = b +:+ String "." c /\ c <> "".
Proof.
  induction s as [|a s IH]; [done|]. destruct s as [|a' s]; [done|].
  cbn [dotBeforeEnd]. destruct (Ascii.eqb a ".") eqn:Ha.
  - apply Ascii.eqb_eq in Ha as ->. intros _. by exists "", (String a' s).
  - cbn [orb]. intros H. destruct (IH H) as (b & c & -> & Hc).
    by exists (String a b), c.
Qed.

Lemma dotBeforeEnd_app b c :
  c <> "" -> dotBeforeEnd (b +:+ String "." c) = true.
Proof.
  intros Hc. induction b as [|a b IH]; simpl.
  - destruct c; [done|]. reflexivity.
  - destruct (b +:+ String "." c) eqn:Hb; [by destruct b|].
    rewrite IH. apply orb_true_r.
Qed.

(** X8.  [isValidEmail] accepts exactly the texts [a@b.c] whose parts [a],
    [b] and [c] are not empty and hold neither white space nor an at sign
    (dots are allowed in every part). *)
Theorem isValidEmail_shape (s : string) :
  isValidEmail (JStr s) = true <->
  exists a b c,
    s = a +:+ "@" +:+ b +:+ "." +:+ c
    /\ a <> "" /\ b <> "" /\ c <> ""
    /\ allChars emailChar a = true /\ allChars emailChar b = true
    /\ allChars emailChar c = true.
Proof.
  unfold isValidEmail. cbn [toString]. split.
  - destruct (splitFirst "@" s) as [[l d]|] eqn:Hsplit; [|done].
    apply splitFirst_Some in Hsplit as [-> _].
    intros [[[Hl Hla]%andb_prop Hda]%andb_prop Hdot]%andb_prop.
    destruct d as [|x d]; [done|]. cbn [innerDot] in Hdot.
    apply dotBeforeEnd_split in Hdot as (b & c & -> & Hc).
    exists l, (String x b), c.
    change (String x (b +:+ String "." c)) with (String x b +:+ String "." c) in *.
    rewrite allChars_app in Hda. apply andb_prop in Hda as [Hb Hdc].
    cbn [allChars] in Hdc. apply andb_prop in Hdc as [_ Hcc].
    repeat split; try done.
    intros ->. done.
  - intros (a & b & c & -> & Ha & Hb & Hc & Haa & Hba & Hca).
    change (a +:+ "@" +:+ b +:+ "." +:+ c)
      with (a +:+ String "@" (b +:+ String "." c)).
    rewrite splitFirst_app.
    + rewrite Haa. replace (String.eqb a "") with false
        by (symmetry; by apply String.eqb_neq).
      cbn [negb andb].
      rewrite allChars_app, Hba. cbn [allChars]. rewrite Hca. cbn [andb].
      destruct b as [|x b]; [done|]. simpl String.append. cbn [innerDot].
      by apply dotBeforeEnd_app.
    + eapply allChars_weaken; [|exact Haa]. unfold emailChar.
      by intros x [_ ?]%andb_prop.
Qed.

(** ** Token expiry *)

Lemma isValidEmail_shape_witness :
  isValidEmail (JStr "user@example.com") = true.
Proof.
  apply (proj2 (isValidEmail_shape "user@example.com")).
  exists "user", "example", "com". repeat split; done.
Defined.

(** X9.  A token that [isTokenExpired] does not count as expired has an
    expiration date: [getTokenExpiration] does not return [null] for it.
    When its [exp] claim is the number [e], that date is the instant
    [e * 1000], which lies less than one second before the current time or
    after it. *)
Theorem not_expired_has_expiration (L : Libs)
  (timesNumber : jsval -> Z -> option Z) (token : string) (now : Z) :
  isTokenExpired L token now = false ->
  exists decoded,
    jwt_decode L token = Ok decoded
    /\ getTokenExpiration L timesNumber token <> None
    /\ forall e, getProp decoded "exp" = JNum e ->
         getTokenExpiration L timesNumber token = Some (timeClip (e * 1000))
         /\ now < e * 1000 + 1000.
Proof.
  unfold isTokenExpired, getTokenExpiration.
  destruct (jwt_decode L token) as [decoded|]; [|done].
  destruct (negb (truthy decoded) || negb (truthy (getProp decoded "exp")));
    [done|].
  intros Hlt. exists decoded. split; [done|]. split; [done|].
  intros e He. rewrite He in Hlt |- *. cbn [times]. split; [done|].
  unfold lessThan in Hlt. apply Z.ltb_ge in Hlt.
  pose proof (Z.div_mod now 1000 ltac:(lia)).
  pose proof (Z.mod_pos_bound now 1000 ltac:(lia)). lia.
Qed.

Lemma not_expired_has_expiration_witness :
  getTokenExpiration refLibs (fun _ _ => None)
    "exp=1700604800;sub=0123456789abcdef01234567"
  = Some (Some 1700604800000).
Proof.
  destruct (not_expired_has_expiration refLibs (fun _ _ => None)
              "exp=1700604800;sub=0123456789abcdef01234567" 1700604800999
              eq_refl) as (decoded & Hdec & _ & Hexp).
  injection Hdec as <-.
  destruct (Hexp 1700604800 eq_refl) as [-> _]. reflexivity.
Defined.

(** ** The middleware *)

Lemma findById_stored (L : Libs) {A} (coll : gmap string A) v oid d :
  findById L coll v = Ok (Some (oid, d)) -> coll !! oid = Some d.
Proof.
  unfold findById.
  destruct v; try done; destruct (castObjectId L _) as [o|]; try done;
    destruct (coll !! o) eqn:Ho; try done; by intros [= <- <-].
Qed.

Lemma auth_next_stored (L : Libs) st req :
  match auth L st req with
  | Next id user => users st !! id = Some user /\ isActive user = true
  | Respond res => statusCode res = 401 \/ statusCode res = 500
  end.
Proof.
  unfold auth, reject.
  destruct (option_map _ (authorization req)) as [[|c t]|]; cbn; auto.
  destruct (jwt_verify L (String c t)); cbn; auto.
  destruct (findById L (users st) _) as [[[id user]|]|] eqn:Hf; cbn; auto.
  destruct (isActive user) eqn:Hact; cbn; auto.
  split; [|done]. by eapply findById_stored.
Qed.

(** X10.  [auth] lets a request through only with a user that is stored
    and active, and answers 401 or 500 otherwise; [adminAuth] lets through
    only stored, active admins, and answers 401, 403 or 500 otherwise. *)
Theorem auth_outcomes (L : Libs) (st : Store) (req : request) :
  match auth L st req with
  | Next id user => users st !! id = Some user /\ isActive user = true
  | Respond res => statusCode res = 401 \/ statusCode res = 500
  end
  /\ match adminAuth L st req with
     | Next id user =>
         users st !! id = Some user /\ isActive user = true
         /\ role user = RoleAdmin
     | Respond res =>
         statusCode res = 401 \/ statusCode res = 403 \/ statusCode res = 500
     end.
Proof.
  pose proof (auth_next_stored L st req) as Hauth.
  split; [exact Hauth|]. unfold adminAuth.
  destruct (auth L st req) as [id user|res].
  - unfold isAdmin, reject. destruct (role user) eqn:Hr; cbn; auto.
    destruct Hauth. auto.
  - destruct Hauth; auto.
Qed.

(** X11.  [optionalAuth] puts a user in the request exactly when [auth]
    lets the request through, and it is the same user; when [auth] answers
    with an error, [optionalAuth] lets the request go on without user. *)
Theorem optionalAuth_agrees_with_auth (L : Libs) (st : Store) (req : request) :
  match auth L st req with
  | Next id user => optionalAuth L st req = Some (id, user)
  | Respond _ => optionalAuth L st req = None
  end.
Proof.
  unfold auth, optionalAuth, reject.
  destruct (option_map _ (authorization req)) as [[|c t]|]; try done.
  destruct (jwt_verify L (String c t)); try done.
  destruct (findById L (users st) _) as [[[id user]|]|]; try done.
  by destruct (isActive user).
Qed.

(** X12.  [checkOwnership] lets through only the owner of a stored
    resource.  On posts it decides as the handler of [DELETE /posts/:id]
    does, with the same status, 403 or 404, when it refuses; an id that
    cannot be cast is the exception, answered 500 by the middleware and 404
    by the handler. *)
Theorem checkOwnership_as_handler (L : Libs) (st : Store)
  (userId id : string) :
  match checkOwnership L (posts st) author userId id with
  | Owned oid p =>
      posts st !! oid = Some p /\ author p = userId
      /\ asyncHandler (deletePostHandler L st userId id)
         = (ok (BMessage "Post deleted successfully"),
            withPosts st (delete oid (posts st)))
  | Refused res =>
      snd (asyncHandler (deletePostHandler L st userId id)) = st
      /\ ((statusCode res = 500 /\ castObjectId L (JStr id) = None
           /\ statusCode (fst (asyncHandler (deletePostHandler L st userId id)))
              = 404)
          \/ ((statusCode res = 403 \/ statusCode res = 404)
              /\ statusCode (fst (asyncHandler (deletePostHandler L st userId id)))
                 = statusCode res))
  end.
Proof.
  unfold checkOwnership, deletePostHandler, findById.
  destruct (castObjectId L (JStr id)) as [oid|]; [|cbn; auto].
  destruct (posts st !! oid) as [p|] eqn:Hp; [|cbn; auto].
  destruct (String.eqb (author p) userId) eqn:Ha; cbn [negb]; [|cbn; auto].
  apply String.eqb_eq in Ha. done.
Qed.

(** ** Slugs and reading time *)

Lemma toLowerCase_id s : allChars slugPatternChar s = true -> toLowerCase s = s.
Proof.
  induction s as [|c s IH]; cbn [allChars toLowerCase]; [done|].
  intros [Hc Hs]%andb_prop. rewrite (IH Hs). f_equal.
  clear -Hc. destruct c as [b0 b1 b2 b3 b4 b5 b6 b7].
  destruct b0, b1, b2, b3, b4, b5, b6, b7; vm_compute in Hc;
    try discriminate Hc; reflexivity.
Qed.

Lemma slugPatternChar_facts c :
  slugPatternChar c = true ->
  slugChar c = true /\ negb (isWhiteSpace c) = true.
Proof.
  destruct c as [b0 b1 b2 b3 b4 b5 b6 b7].
  destruct b0, b1, b2, b3, b4, b5, b6, b7; vm_compute; intros H;
    try discriminate H; done.
Qed.

Lemma slugChar_not_space c :
  slugChar c = true -> isWhiteSpace c = false -> slugPatternChar c = true.
Proof.
  unfold slugChar, slugPatternChar. intros H Hw. rewrite Hw in H.
  by rewrite orb_false_r in H.
Qed.

Lemma replaceRuns_spaces s : forall b,
  allChars slugChar s = true ->
  allChars slugPatternChar (replaceRuns isWhiteSpace b s) = true.
Proof.
  induction s as [|c s IH]; intros b; cbn [allChars replaceRuns]; [done|].
  intros [Hc Hs]%andb_prop. destruct (isWhiteSpace c) eqn:Hw.
  - destruct b; [by apply IH|]. cbn [allChars]. by rewrite IH.
  - cbn [allChars]. by rewrite (slugChar_not_space c Hc Hw), IH.
Qed.

Lemma replaceRuns_hyphens_chars s : forall b,
  allChars slugPatternChar s = true ->
  allChars slugPatternChar (replaceRuns isHyphen b s) = true.
Proof.
  induction s as [|c s IH]; intros b; cbn [allChars replaceRuns]; [done|].
  intros [Hc Hs]%andb_prop. destruct (isHyphen c) eqn:Hh.
  - destruct b; [by apply IH|]. cbn [allChars]. by rewrite IH.
  - cbn [allChars]. by rewrite Hc, IH.
Qed.

Lemma replaceRuns_hyphens_apart s : forall b,
  hyphensApart b (replaceRuns isHyphen b s) = true.
Proof.
  induction s as [|c s IH]; intros b; cbn [replaceRuns]; [done|].
  destruct (isHyphen c) eqn:Hh.
  - destruct b; [apply IH|]. cbn [hyphensApart]. apply IH.
  - cbn [hyphensApart]. rewrite Hh, andb_false_r. apply IH.
Qed.

Lemma replaceRuns_none cls s : forall b,
  allChars (fun c => negb (cls c)) s = true -> replaceRuns cls b s = s.
Proof.
  induction s as [|c s IH]; intros b; cbn [allChars replaceRuns]; [done|].
  intros [Hc Hs]%andb_prop. apply negb_true_iff in Hc. rewrite Hc.
  by rewrite IH.
Qed.

Lemma replaceRuns_apart s : forall b,
  hyphensApart b s = true -> replaceRuns isHyphen b s = s.
Proof.
  induction s as [|c s IH]; intros b; cbn [hyphensApart replaceRuns]; [done|].
  intros [Hc Hs]%andb_prop. destruct (isHyphen c) eqn:Hh.
  - destruct b; [done|]. rewrite (IH true Hs). f_equal.
    unfold isHyphen in Hh. by apply Ascii.eqb_eq in Hh.
  - by rewrite (IH false Hs).
Qed.

Lemma slugify_untrimmed title :
  slugify title
  = replaceRuns isHyphen false
      (replaceRuns isWhiteSpace false
         (filterChars slugChar (toLowerCase title))).
Proof.
  unfold slugify. apply trim_id.
  eapply allChars_weaken;
    [|apply replaceRuns_hyphens_chars, replaceRuns_spaces, allChars_filterChars].
  intros c Hc. by apply slugPatternChar_facts.
Qed.

(** X13.  The slug made by the [pre('save')] hook holds only the
    characters [a-z], [0-9] and [-], never two hyphens in a row, and is its
    own slug.  The final [trim('-')] removes nothing: hyphens at the ends of
    the slug stay. *)
Theorem slugify_invariants (title : string) :
  allChars slugPatternChar (slugify title) = true
  /\ hyphensApart false (slugify title) = true
  /\ slugify (slugify title) = slugify title
  /\ slugify title
     = replaceRuns isHyphen false
         (replaceRuns isWhiteSpace false
            (filterChars slugChar (toLowerCase title))).
Proof.
  assert (Hchars : allChars slugPatternChar (slugify title) = true).
  { rewrite slugify_untrimmed.
    apply replaceRuns_hyphens_chars, replaceRuns_spaces, allChars_filterChars. }
  assert (Hapart : hyphensApart false (slugify title) = true).
  { rewrite slugify_untrimmed. apply replaceRuns_hyphens_apart. }
  split; [done|]. split; [done|]. split; [|apply slugify_untrimmed].
  rewrite (slugify_untrimmed (slugify title)).
  rewrite (toLowerCase_id _ Hchars).
  rewrite filterChars_id
    by (eapply allChars_weaken; [|exact Hchars];
        intros c Hc; by apply slugPatternChar_facts).
  rewrite (replaceRuns_none isWhiteSpace)
    by (eapply allChars_weaken; [|exact Hchars];
        intros c Hc; by apply slugPatternChar_facts).
  by apply replaceRuns_apart.
Qed.

Lemma splitSpaces_length s :
  length (splitSpaces s)
  = S (String.length (filterChars (fun c => Ascii.eqb c " ") s)).
Proof.
  induction s as [|c s IH]; cbn [splitSpaces filterChars]; [done|].
  destruct (Ascii.eqb c " "); cbn [length String.length]; [by rewrite IH|].
  destruct (splitSpaces s); cbn [length] in *; lia.
Qed.

(** X14.  The reading time counts the pieces between single spaces, one
    more than there are spaces, in minutes of 200 pieces rounded up: it is
    at least 1, also for an empty content. *)
Theorem readingTime_bounds (p : Post) :
  let words :=
    1 + Z.of_nat (String.length
                    (filterChars (fun c => Ascii.eqb c " ") (content p))) in
  1 <= readingTime p
  /\ 200 * (readingTime p - 1) < words <= 200 * readingTime p.
Proof.
  cbv zeta. unfold readingTime, ceilDiv. rewrite splitSpaces_length.
  set (n := String.length _). rewrite Nat2Z.inj_succ.
  pose proof (Z.div_mod (- Z.succ (Z.of_nat n)) 200 ltac:(lia)).
  pose proof (Z.mod_pos_bound (- Z.succ (Z.of_nat n)) 200 ltac:(lia)).
  lia.
Qed.


(** ** Sorted queries *)

Lemma newerFirst_total : Total newerFirst.
Proof. intros a b. unfold newerFirst. lia. Qed.

Lemma newerFirst_trans : Transitive newerFirst.
Proof. intros a b c. unfold newerFirst. lia. Qed.

Lemma findSorted_elem_of f (coll : gmap string Post) k p :
  (k, p) ∈ findSorted f coll <-> coll !! k = Some p /\ f p = true.
Proof.
  unfold findSorted. rewrite merge_sort_Permutation.
  rewrite list_elem_of_In, filter_In, <- list_elem_of_In.
  by rewrite elem_of_map_to_list.
Qed.

Lemma findSorted_sorted f (coll : gmap string Post) :
  StronglySorted newerFirst (findSorted f coll).
Proof.
  unfold findSorted.
  apply (@StronglySorted_merge_sort _ newerFirst _ newerFirst_trans
           newerFirst_total).
Qed.

Lemma findSorted_length f (coll : gmap string Post) :
  Z.of_nat (length (findSorted f coll)) = countDocuments f coll.
Proof.
  unfold findSorted, countDocuments. f_equal.
  apply Permutation_length, merge_sort_Permutation.
Qed.

Lemma StronglySorted_drop {A} (R : relation A) l n :
  StronglySorted R l -> StronglySorted R (drop n l).
Proof.
  revert n. induction l as [|x l IH]; intros [|n] Hl; cbn [drop]; try done.
  apply IH. by apply StronglySorted_inv in Hl as [? _].
Qed.

Lemma StronglySorted_take {A} (R : relation A) l n :
  StronglySorted R l -> StronglySorted R (take n l).
Proof.
  revert n. induction l as [|x l IH]; intros [|n] Hl; cbn [take];
    try constructor.
  - apply IH. by apply StronglySorted_inv in Hl as [? _].
  - apply Forall_take. by apply StronglySorted_inv in Hl as [_ ?].
Qed.

Lemma skipLimit_facts {A} (R : relation A) skip lim (l : list A) :
  0 <= lim ->
  (forall x, x ∈ skipLimit skip lim l -> x ∈ l)
  /\ (StronglySorted R l -> StronglySorted R (skipLimit skip lim l))
  /\ Z.of_nat (length (skipLimit skip lim l)) <= lim
  /\ (length (skipLimit skip lim l) <= length l)%nat.
Proof.
  intros Hlim. unfold skipLimit. repeat split.
  - intros x Hx. by apply subseteq_take, subseteq_drop in Hx.
  - intros Hs. by apply StronglySorted_take, StronglySorted_drop.
  - rewrite length_take. lia.
  - rewrite length_take, length_drop. lia.
Qed.

(** X16.  [findPublished] returns exactly the stored posts whose status is
    published, and [findByCategory] those of them that are in the category,
    each post once and the newer ones first. *)
Theorem findPublished_spec (coll : gmap string Post) (categoryId : string) :
  (forall k p, (k, p) ∈ findPublished coll
               <-> coll !! k = Some p /\ status p = Published)
  /\ (forall k p, (k, p) ∈ findByCategory categoryId coll
                  <-> coll !! k = Some p /\ status p = Published
                      /\ category p = categoryId)
  /\ StronglySorted newerFirst (findPublished coll)
  /\ StronglySorted newerFirst (findByCategory categoryId coll)
  /\ NoDup (findPublished coll) /\ NoDup (findByCategory categoryId coll).
Proof.
  assert (Hpub : forall p, String.eqb (statusName (status p)) "published" = true
                           <-> status p = Published).
  { intros p. by destruct (status p). }
  split; [|split; [|split; [|split; [|split]]]].
  - intros k p. unfold findPublished. by rewrite findSorted_elem_of, Hpub.
  - intros k p. unfold findByCategory.
    rewrite findSorted_elem_of, andb_true_iff, Hpub, String.eqb_eq. tauto.
  - apply findSorted_sorted.
  - apply findSorted_sorted.
  - unfold findPublished, findSorted. rewrite merge_sort_Permutation.
    apply NoDup_ListNoDup, List.NoDup_filter, NoDup_ListNoDup, NoDup_map_to_list.
  - unfold findByCategory, findSorted. rewrite merge_sort_Permutation.
    apply NoDup_ListNoDup, List.NoDup_filter, NoDup_ListNoDup, NoDup_map_to_list.
Qed.

(** ** More on the routes of posts *)

Lemma validatePagination_limit a b pg :
  validatePagination a b = Ok pg -> 1 <= limit pg <= 100.
Proof.
  unfold validatePagination.
  destruct (orDefault (parseInt a) 1 <? 1) eqn:Hp; [done|].
  destruct (orDefault (parseInt b) 10 <? 1) eqn:Hl1; [done|].
  destruct (orDefault (parseInt b) 10 >? 100) eqn:Hl2; [done|].
  cbn [orb]. intros [= <-]. cbn [limit].
  apply Z.ltb_ge in Hl1. rewrite Z.gtb_ltb in Hl2. apply Z.ltb_ge in Hl2. lia.
Qed.

Lemma ceilDiv_bounds total lim :
  0 < lim -> lim * (ceilDiv total lim - 1) < total <= lim * ceilDiv total lim.
Proof.
  intros Hl. unfold ceilDiv.
  pose proof (Z.div_mod (- total) lim ltac:(lia)).
  pose proof (Z.mod_pos_bound (- total) lim ltac:(lia)). nia.
Qed.

Lemma findPublished_spec_witness :
  (postId, mkPost "Test Post" aliceId Published 10 [] 2000)
  ∈ findPublished (posts sampleStore).
Proof.
  apply (proj1 (findPublished_spec (posts sampleStore) "")).
  split; reflexivity.
Defined.

(** X17.  A list answered by [GET /api/posts/author/:authorId] holds only
    stored, published posts of that author, the newer ones first and at
    most [limit] of them; [total] is the number of stored, published posts
    of that author, and [pages] is the least number of pages of [limit]
    posts that hold them. *)
Theorem authorPosts_page (L : Libs) (st : Store) (req : request)
  (found : list (string * Post)) (info : pageInfo) :
  json (fst (authorPostsRoute L st req)) = BPosts found info ->
  exists authorId,
    castObjectId L (JStr (paramId req)) = Some authorId
    /\ (forall k p, (k, p) ∈ found ->
          posts st !! k = Some p /\ author p = authorId
          /\ status p = Published)
    /\ StronglySorted newerFirst found
    /\ 1 <= infoLimit info <= 100
    /\ Z.of_nat (length found) <= infoLimit info
    /\ Z.of_nat (length found) <= infoTotal info
    /\ infoTotal info
       = countDocuments
           (fun p => String.eqb (author p) authorId
                     && match status p with
                        | Published => true
                        | _ => false
                        end) (posts st)
    /\ infoLimit info * (infoPages info - 1) < infoTotal info
       <= infoLimit info * infoPages info.
Proof.
  unfold authorPostsRoute.
  destruct (checkValidationResult _) as [res|] eqn:Hc.
  { apply checkValidationResult_Some in Hc as ->. done. }
  unfold authorPostsHandler, bind, asyncHandler.
  destruct (validatePagination _ _) as [pg|e] eqn:Hpg; [|by destruct e].
  destruct (castObjectId L (JStr (paramId req))) as [authorId|]; [|done].
  cbn [fst json ok]. intros [= <- <-]. exists authorId.
  pose proof (validatePagination_limit _ _ _ Hpg) as Hlim.
  destruct (skipLimit_facts newerFirst ((page pg - 1) * limit pg) (limit pg)
              (findSorted (authorFilter authorId) (posts st)) ltac:(lia))
    as (Hin & Hsorted & Hlen & Hlen2).
  cbn [infoLimit infoTotal infoPages].
  split; [done|]. split; [|split; [|split; [|split; [|split; [|split]]]]].
  - intros k p Hk. apply Hin, findSorted_elem_of in Hk as [Hk Hf].
    unfold authorFilter in Hf. apply andb_prop in Hf as [Ha Hs].
    apply String.eqb_eq in Ha. split; [done|]. split; [done|].
    by destruct (status p).
  - apply Hsorted, findSorted_sorted.
  - done.
  - done.
  - rewrite <- findSorted_length. lia.
  - unfold countDocuments. do 2 f_equal. apply List.filter_ext.
    intros [k p]. unfold authorFilter. cbn [snd]. by destruct (status p).
  - apply ceilDiv_bounds. lia.
Qed.

Lemma authorPosts_page_witness :
  exists found info,
    json (fst (authorPostsRoute refLibs sampleStore
                 (sampleRequest None aliceId [])))
    = BPosts found info
    /\ found = [(postId, mkPost "Test Post" aliceId Published 10 [] 2000)]
    /\ StronglySorted newerFirst found.
Proof.
  eexists _, _. split; [vm_compute; reflexivity|]. split; [reflexivity|].
  destruct (authorPosts_page refLibs sampleStore
              (sampleRequest None aliceId []) _ _
              ltac:(vm_compute; reflexivity))
    as (authorId & _ & _ & Hsorted & _).
  exact Hsorted.
Defined.

(** X18.  Every post listed by [GET /api/posts] is a stored post.  When the
    query gives no status, or an empty one, the posts listed are published:
    no draft is listed then.  When the query gives the status as one text,
    every post listed has that status.  (A status given several times
    reaches the handler as an array, which is cast by Mongoose: that case
    is the library's.) *)
Theorem listPosts_one_status (L : Libs) (st : Store) (req : request)
  (found : list (string * Post)) (info : pageInfo) :
  json (fst (listPostsRoute L st req)) = BPosts found info ->
  forall k p, (k, p) ∈ found ->
    posts st !! k = Some p
    /\ (truthy (queryParam "status" (query req)) = false ->
        status p = Published)
    /\ (forall s, queryParam "status" (query req) = JStr s -> s <> "" ->
          statusName (status p) = s).
Proof.
  unfold listPostsRoute.
  destruct (checkValidationResult _) as [res|] eqn:Hc.
  { apply checkValidationResult_Some in Hc as ->. done. }
  unfold listPostsHandler, bind, asyncHandler.
  destruct (if truthy (queryParam "search" (query req)) then _ else _)
    as [searchF|e]; [|by destruct e].
  destruct (validatePagination _ _) as [pg|e] eqn:Hpg; [|by destruct e].
  destruct (castString L _ _) as [statusF|e] eqn:Hst; [|by destruct e].
  destruct (castFilter L _) as [categoryF|e]; [|by destruct e].
  cbn [fst json ok]. intros [= <- _] k p Hk.
  pose proof (validatePagination_limit _ _ _ Hpg) as Hlim.
  destruct (skipLimit_facts newerFirst ((page pg - 1) * limit pg) (limit pg)
              (findSorted (listFilter L statusF categoryF searchF) (posts st))
              ltac:(lia)) as (Hin & _).
  apply Hin, findSorted_elem_of in Hk as [Hk Hf]. split; [done|].
  unfold listFilter in Hf. apply andb_prop in Hf as [Hf _].
  apply andb_prop in Hf as [Hf _]. split.
  - intros Hfalse. rewrite Hfalse in Hst. cbn [castString] in Hst.
    injection Hst as <-. by destruct (status p).
  - intros s Hs Hne. rewrite Hs in Hst.
    replace (truthy (JStr s)) with true in Hst
      by (cbn; symmetry; by apply negb_true_iff, String.eqb_neq).
    cbn [castString] in Hst. injection Hst as <-.
    by apply String.eqb_eq in Hf.
Qed.

Lemma listPosts_one_status_witness :
  posts sampleStore !! postId
  = Some (mkPost "Test Post" aliceId Published 10 [] 2000)
  /\ status (mkPost "Test Post" aliceId Published 10 [] 2000) = Published.
Proof.
  destruct (listPosts_one_status refLibs sampleStore (sampleRequest None "" [])
              [(postId, mkPost "Test Post" aliceId Published 10 [] 2000)]
              {| infoPage := 1; infoLimit := 10; infoTotal := 1; infoPages := 1 |}
              ltac:(vm_compute; reflexivity) postId
              (mkPost "Test Post" aliceId Published 10 [] 2000))
    as (Hstored & Hpub & _).
  - apply list_elem_of_singleton. reflexivity.
  - split; [exact Hstored|]. apply Hpub. reflexivity.
Defined.

(** X19.  A search text that passes the validation chain of
    [GET /api/posts] but holds fewer than two characters once trimmed, such
    as two spaces, is refused by [validateSearchQuery] inside the handler:
    the answer is 500, not 400. *)
Theorem listPosts_blank_search (L : Libs) (st : Store) (req : request)
  (c : ascii) (s : string) :
  checkValidationResult (listPostsChecks L req) = None ->
  queryParam "search" (query req) = JStr (String c s) ->
  (String.length (trim (String c s)) < 2)%nat ->
  listPostsRoute L st req
  = ({| statusCode := 500;
        json := BError "Search query must be at least 2 characters long" |},
     st).
Proof.
  intros Hc Hq Hlen. unfold listPostsRoute, listPostsHandler. rewrite Hc, Hq.
  cbn [truthy String.eqb negb]. unfold validateSearchQuery.
  replace (Z.of_nat (String.length (trim (String c s))) <? 2) with true
    by (symmetry; apply Z.ltb_lt; lia).
  reflexivity.
Qed.

Lemma listPosts_blank_search_witness :
  listPostsRoute refLibs sampleStore (sampleRequest None "" [("search", "  ")])
  = ({| statusCode := 500;
        json := BError "Search query must be at least 2 characters long" |},
     sampleStore).
Proof.
  apply (listPosts_blank_search refLibs sampleStore
           (sampleRequest None "" [("search", "  ")]) " " " ").
  - reflexivity.
  - reflexivity.
  - vm_compute. lia.
Defined.

(** X20.  When the author deletes a post with [DELETE /posts/:id], the
    answer is 200, that post is gone and every other document stays; a
    [GET /posts/:id] for the same id afterwards finds nothing: it is
    answered 404, or 400 when its validation chain fails, and counts no
    view. *)
Theorem deletePost_then_not_found (L : Libs) (st : Store) (req : request)
  (userId : string) (user : User) (oid : string) (p : Post) :
  auth L st req = Next userId user ->
  castObjectId L (JStr (paramId req)) = Some oid ->
  posts st !! oid = Some p ->
  author p = userId ->
  let '(res, st') := deletePostRoute L st req in
  res = ok (BMessage "Post deleted successfully")
  /\ posts st' !! oid = None
  /\ (forall k, k <> oid -> posts st' !! k = posts st !! k)
  /\ users st' = users st
  /\ forall req2, paramId req2 = paramId req ->
       snd (getPostRoute L st' req2) = st'
       /\ (statusCode (fst (getPostRoute L st' req2)) = 404
           \/ statusCode (fst (getPostRoute L st' req2)) = 400).
Proof.
  intros Hauth Hcast Hp Ha. unfold deletePostRoute, deletePostHandler.
  rewrite Hauth, (findById_found L _ _ _ _ Hcast Hp).
  replace (String.eqb (author p) userId) with true
    by (symmetry; by apply String.eqb_eq).
  cbn [negb asyncHandler withPosts posts users].
  split; [done|]. split; [apply lookup_delete_eq|]. split.
  { intros k Hk. by apply lookup_delete_ne. }
  split; [done|]. intros req2 Hid. unfold getPostRoute.
  destruct (checkValidationResult _) as [res|] eqn:Hc.
  { apply checkValidationResult_Some in Hc as ->. cbn. auto. }
  unfold getPostHandler, findById. rewrite Hid, Hcast. cbn [posts withPosts].
  rewrite lookup_delete_eq. cbn. auto.
Qed.

Lemma deletePost_then_not_found_witness :
  let '(res, st') :=
    deletePostRoute refLibs sampleStore (sampleRequest (Some aliceId) postId []) in
  statusCode res = 200 /\ posts st' !! postId = None.
Proof.
  pose proof (deletePost_then_not_found refLibs sampleStore
                (sampleRequest (Some aliceId) postId [])
                aliceId (mkUser "alice" RoleUser) postId
                (mkPost "Test Post" aliceId Published 10 [] 2000)
                ltac:(vm_compute; reflexivity) ltac:(vm_compute; reflexivity)
                ltac:(vm_compute; reflexivity) eq_refl) as H.
  destruct (deletePostRoute refLibs sampleStore _) as [res st'].
  destruct H as (-> & Hgone & _). split; [reflexivity|exact Hgone].
Defined.



(** ** More on the routes of users *)

Lemma auth_user_gone (L : Libs) st st' req id user :
  auth L st req = Next id user ->
  users st' !! id = None ->
  auth L st' req
  = Respond {| statusCode := 401;
               json := BError "Invalid token. User not found." |}.
Proof.
  intros Hauth Hgone. unfold auth, findById in Hauth |- *.
  destruct (option_map _ (authorization req)) as [[|c t]|]; try done.
  destruct (jwt_verify L (String c t)); try done.
  destruct (getProp decoded "userId") eqn:Hv; try done.
  all: destruct (castObjectId L _) as [o|]; [|done].
  all: destruct (users st !! o) as [u0|]; [|done].
  all: destruct (isActive u0); [|done].
  all: injection Hauth as -> ->; by rewrite Hgone.
Qed.

(** X22.  The guard of [DELETE /users/:id] against self-deletion compares
    the text of the id with the id of the caller.  When the id in the path
    is written otherwise and still cast to the caller's own id, the admin
    deletes their own account: the answer is 200, the account is gone, and
    the next request with the same token is refused 401. *)
Theorem deleteUser_own_account (L : Libs) (st : Store) (req : request)
  (adminId' : string) (admin : User) :
  adminAuth L st req = Next adminId' admin ->
  paramId req <> adminId' ->
  castObjectId L (JStr (paramId req)) = Some adminId' ->
  let '(res, st') := deleteUserRoute L st req in
  res = ok (BMessage "User deleted successfully")
  /\ users st' !! adminId' = None
  /\ adminAuth L st' req
     = Respond {| statusCode := 401;
                  json := BError "Invalid token. User not found." |}.
Proof.
  intros Hadmin Hself Hcast.
  assert (Hauth : auth L st req = Next adminId' admin).
  { unfold adminAuth in Hadmin. destruct (auth L st req) as [i u|]; [|done].
    destruct (isAdmin u); [|done]. by injection Hadmin as -> ->. }
  assert (Hstored : users st !! adminId' = Some admin).
  { pose proof (auth_next_stored L st req) as H. rewrite Hauth in H. tauto. }
  unfold deleteUserRoute, deleteUserHandler. rewrite Hadmin.
  replace (String.eqb adminId' (paramId req)) with false
    by (symmetry; apply String.eqb_neq; congruence).
  rewrite (findById_found L _ _ _ _ Hcast Hstored).
  cbn [asyncHandler withUsers withPosts users posts].
  split; [done|]. split; [apply lookup_delete_eq|].
  unfold adminAuth. erewrite auth_user_gone; [done|exact Hauth|].
  cbn [users]. apply lookup_delete_eq.
Qed.

Lemma deleteUser_own_account_witness :
  let req := sampleRequest (Some adminId) "AAAAAAAAAAAAAAAAAAAAAAAA" [] in
  let '(res, st') := deleteUserRoute refLibs sampleStore req in
  statusCode res = 200 /\ users st' !! adminId = None.
Proof.
  pose proof (deleteUser_own_account refLibs sampleStore
                (sampleRequest (Some adminId) "AAAAAAAAAAAAAAAAAAAAAAAA" [])
                adminId (mkUser "admin" RoleAdmin)
                ltac:(vm_compute; reflexivity) ltac:(vm_compute; discriminate)
                ltac:(vm_compute; reflexivity)) as H.
  cbv zeta.
  destruct (deleteUserRoute refLibs sampleStore _) as [res st'].
  destruct H as (-> & Hgone & _). split; [reflexivity|exact Hgone].
Defined.

Lemma accessDenied_true callerId caller id :
  accessDenied callerId caller id = true
  <-> role caller = RoleUser /\ callerId <> id.
Proof.
  unfold accessDenied, isAdmin. rewrite andb_true_iff, !negb_true_iff.
  rewrite String.eqb_neq. by destruct (role caller); intuition.
Qed.

(** X23.  Each of the handlers of [GET /users/:id], [/users/:id/stats] and
    [/users/:id/posts] answers 403 exactly when the caller is no admin and
    the id in the path is not, letter for letter, the caller's own.  The
    check comes before any query: such a caller gets the same 403 whatever
    the store holds, and so cannot learn whether the id exists. *)
Theorem user_routes_access (L : Libs) (st : Store) (callerId : string)
  (caller : User) (req : request) :
  (userStatus (asyncUserHandler
                 (getUserHandler L st callerId caller (paramId req))) = 403
   <-> role caller = RoleUser /\ callerId <> paramId req)
  /\ (userStatus (asyncUserHandler
                    (userStatsHandler L st callerId caller (paramId req))) = 403
      <-> role caller = RoleUser /\ callerId <> paramId req)
  /\ (statusCode (fst (asyncHandler
                         (userPostsHandler L st callerId caller req, st))) = 403
      <-> role caller = RoleUser /\ callerId <> paramId req)
  /\ (role caller = RoleUser -> callerId <> paramId req ->
      forall st',
        getUserHandler L st' callerId caller (paramId req)
        = Throw (AppError "Access denied" 403)
        /\ userStatsHandler L st' callerId caller (paramId req)
           = Throw (AppError "Access denied" 403)
        /\ userPostsHandler L st' callerId caller req
           = Throw (AppError "Access denied" 403)).
Proof.
  split; [|split; [|split]].
  - rewrite <- accessDenied_true. unfold getUserHandler.
    destruct (accessDenied callerId caller (paramId req)); [done|].
    unfold findById.
    destruct (castObjectId L (JStr (paramId req))) as [oid|]; [|by cbn].
    by destruct (users st !! oid).
  - rewrite <- accessDenied_true. unfold userStatsHandler.
    destruct (accessDenied callerId caller (paramId req)); [done|].
    unfold findById.
    destruct (castObjectId L (JStr (paramId req))) as [oid|]; [|by cbn].
    by destruct (users st !! oid).
  - rewrite <- accessDenied_true. unfold userPostsHandler, bind.
    destruct (accessDenied callerId caller (paramId req)); [done|].
    unfold findById.
    destruct (castObjectId L (JStr (paramId req))) as [oid|]; [|by cbn].
    destruct (users st !! oid); [|by cbn].
    destruct (validatePagination _ _) as [pg|e] eqn:Hpg.
    2: { apply validatePagination_throws in Hpg as [m ->]. by cbn. }
    destruct (truthy (queryParam "status" (query req))); [|by cbn].
    destruct (castString L _ _) as [f|e] eqn:Hst; [by cbn|].
    apply castString_throws in Hst as ->. by cbn.
  - intros Hrole Hne st'.
    assert (Hden : accessDenied callerId caller (paramId req) = true)
      by (by apply accessDenied_true).
    unfold getUserHandler, userStatsHandler, userPostsHandler.
    by rewrite Hden.
Qed.

Lemma user_routes_access_witness :
  getUserHandler refLibs sampleStore bobId (mkUser "bob" RoleUser) aliceId
  = Throw (AppError "Access denied" 403).
Proof.
  apply (proj2 (proj2 (proj2 (user_routes_access refLibs sampleStore bobId
                                (mkUser "bob" RoleUser)
                                (sampleRequest (Some bobId) aliceId []))))
           eq_refl ltac:(vm_compute; discriminate) sampleStore).
Defined.






(** X25.  [GET /users/:id/posts] answers a list only to an admin or to the
    user named, letter for letter, by the path.  The list holds stored posts
    of that author, the newer ones first and at most [limit] of them; when
    the query gives the status as one text, they have that status; when it
    gives none, or an empty one, the total counts the posts of every
    status, drafts included.  (A status given several times reaches the
    handler as an array, which is cast by Mongoose: that case is the
    library's.) *)
Theorem userPosts_page (L : Libs) (st : Store) (req : request)
  (found : list (string * Post)) (info : pageInfo) :
  json (userPostsRoute L st req) = BPosts found info ->
  exists callerId caller oid,
    auth L st req = Next callerId caller
    /\ (role caller = RoleAdmin \/ callerId = paramId req)
    /\ castObjectId L (JStr (paramId req)) = Some oid
    /\ (forall k p, (k, p) ∈ found ->
          posts st !! k = Some p /\ author p = oid
          /\ (forall s, queryParam "status" (query req) = JStr s -> s <> "" ->
                statusName (status p) = s))
    /\ StronglySorted newerFirst found
    /\ Z.of_nat (length found) <= infoLimit info <= 100
    /\ (truthy (queryParam "status" (query req)) = false ->
        infoTotal info
        = countDocuments (fun p => String.eqb (author p) oid) (posts st)).
Proof.
  unfold userPostsRoute.
  destruct (auth L st req) as [callerId caller|res] eqn:Hauth.
  2: { pose proof (auth_next_stored L st req) as H. rewrite Hauth in H.
       unfold auth, reject in Hauth. intros Hj.
       repeat case_match; simplify_eq; done. }
  destruct (checkValidationResult _) as [res|] eqn:Hc.
  { apply checkValidationResult_Some in Hc as ->. done. }
  unfold userPostsHandler, asyncHandler, bind. cbn [fst].
  destruct (accessDenied callerId caller (paramId req)) eqn:Hden; [done|].
  unfold findById.
  destruct (castObjectId L (JStr (paramId req))) as [oid|]; [|done].
  destruct (users st !! oid) as [u|]; [|done].
  destruct (validatePagination _ _) as [pg|e] eqn:Hpg; [|by destruct e].
  destruct (if truthy (queryParam "status" (query req)) then _ else _)
    as [statusF|e] eqn:Hst; [|by destruct e].
  cbn [json ok]. intros [= <- <-]. exists callerId, caller, oid.
  pose proof (validatePagination_limit _ _ _ Hpg) as Hlim.
  destruct (skipLimit_facts newerFirst ((page pg - 1) * limit pg) (limit pg)
              (findSorted (ownPostsFilter oid statusF) (posts st)) ltac:(lia))
    as (Hin & Hsorted & Hlen & _).
  cbn [infoLimit infoTotal].
  split; [done|]. split.
  { destruct (role caller) eqn:Hr; [right|by left].
    destruct (decide (callerId = paramId req)) as [|Hne]; [done|].
    assert (accessDenied callerId caller (paramId req) = true); [|congruence].
    by apply accessDenied_true. }
  split; [done|]. split; [|split; [|split; [lia|]]].
  - intros k p Hk. apply Hin, findSorted_elem_of in Hk as [Hk Hf].
    unfold ownPostsFilter in Hf. apply andb_prop in Hf as [Ha Hs].
    apply String.eqb_eq in Ha. split; [done|]. split; [done|].
    intros s Hq Hne. rewrite Hq in Hst.
    replace (truthy (JStr s)) with true in Hst
      by (cbn; symmetry; by apply negb_true_iff, String.eqb_neq).
    cbn [castString] in Hst. injection Hst as <-.
    by apply String.eqb_eq in Hs.
  - apply Hsorted, findSorted_sorted.
  - intros Hq. rewrite Hq in Hst. injection Hst as <-.
    unfold countDocuments, ownPostsFilter. do 2 f_equal.
    apply List.filter_ext. intros d. by rewrite andb_true_r.
Qed.

Lemma userPosts_page_witness :
  exists found info,
    json (userPostsRoute refLibs sampleStore (sampleRequest (Some aliceId) aliceId []))
    = BPosts found info
    /\ found = [(postId, mkPost "Test Post" aliceId Published 10 [] 2000);
                (draftId, mkPost "Draft Post" aliceId Draft 5 [] 1000)]
    /\ StronglySorted newerFirst found.
Proof.
  eexists _, _. split; [vm_compute; reflexivity|]. split; [reflexivity|].
  destruct (userPosts_page refLibs sampleStore
              (sampleRequest (Some aliceId) aliceId []) _ _
              ltac:(vm_compute; reflexivity))
    as (callerId & caller & oid & _ & _ & _ & _ & Hsorted & _).
  exact Hsorted.
Defined.

(** X26.  [GET /users/:id] validates the [id] of the query string, not the
    one of the path.  An answer with a user is given only for a stored user,
    to an admin or to that user, and only when the query string passed the
    check; an authenticated request without [id] in its query string gets
    400 when the empty string is no Mongo id, whatever the path names. *)
Theorem getUser_checks_query_id (L : Libs) (st : Store) (req : request) :
  (forall oid user,
      userJson (getUserRoute L st req) = UUser oid user ->
      users st !! oid = Some user
      /\ castObjectId L (JStr (paramId req)) = Some oid
      /\ (exists callerId caller,
            auth L st req = Next callerId caller
            /\ (role caller = RoleAdmin \/ callerId = paramId req))
      /\ chain L (queryParam "id" (query req)) false (isMongoId L)
           "Invalid user ID" = [])
  /\ (forall callerId caller,
        auth L st req = Next callerId caller ->
        queryParam "id" (query req) = JUndefined ->
        isMongoId L "" = false ->
        getUserRoute L st req
        = {| userStatus := 400;
             userJson := UBody (BValidationFailed ["Invalid user ID"]) |}).
Proof.
  unfold getUserRoute. split.
  - intros oid user.
    destruct (auth L st req) as [callerId caller|res]; [|done].
    destruct (checkValidationResult _) as [res|] eqn:Hc; [done|].
    assert (Hchain : chain L (queryParam "id" (query req)) false (isMongoId L)
                       "Invalid user ID" = []).
    { unfold checkValidationResult in Hc. by case_match. }
    unfold getUserHandler.
    destruct (accessDenied callerId caller (paramId req)) eqn:Hden; [done|].
    unfold findById.
    destruct (castObjectId L (JStr (paramId req))) as [o|]; [|done].
    destruct (users st !! o) as [u|] eqn:Hu; [|done].
    cbn [asyncUserHandler userJson]. intros [= -> ->].
    split; [done|]. split; [done|]. split; [|done].
    exists callerId, caller. split; [done|].
    destruct (role caller) eqn:Hr; [right|by left].
    destruct (decide (callerId = paramId req)) as [|Hne]; [done|].
    assert (accessDenied callerId caller (paramId req) = true); [|congruence].
    by apply accessDenied_true.
  - intros callerId caller -> -> Hempty. unfold chain. by rewrite Hempty.
Qed.

Lemma getUser_checks_query_id_witness :
  getUserRoute refLibs sampleStore (sampleRequest (Some aliceId) aliceId [])
  = {| userStatus := 400;
       userJson := UBody (BValidationFailed ["Invalid user ID"]) |}.
Proof.
  apply (proj2 (getUser_checks_query_id refLibs sampleStore
                  (sampleRequest (Some aliceId) aliceId [])))
    with (callerId := aliceId) (caller := mkUser "alice" RoleUser);
    vm_compute; reflexivity.
Defined.
